(** * Geminiassistant: conversation buffering, rate limiting and message
      formatting of the Telegram/Gemini relay bot

    A shallow embedding of [utils.py], [config.py], [gemini_handler.py],
    [bot.py] and [admin_controls.py], followed by the properties of the
    specification that were checked against it. *)

From Stdlib Require Import ZArith Lia SpecFloat Sorted.
From stdpp Require Import base numbers option list strings gmap.

Local Open Scope Z_scope.

(** ** Python values *)

Module Py.

(** A Python [str] is a sequence of Unicode code points; [len] counts
    code points. *)
Abbreviation char := N (only parsing).
Abbreviation pystr := (list N) (only parsing).

(** ASCII literals of the source, code point by code point. *)
Fixpoint lit (s : string) : pystr :=
  match s with
  | EmptyString => []
  | String c s' => Ascii.N_of_ascii c :: lit s'
  end.

Definition LF : char := 10%N.
Definition BACKSLASH : char := 92%N.
Definition DOT : char := 46%N.

Definition len {A} (l : list A) : Z := Z.of_nat (length l).

(** [l[:k]]: a negative bound counts from the end and is clamped at 0. *)
Definition slice_to {A} (l : list A) (k : Z) : list A :=
  if k <? 0 then take (Z.to_nat (len l + k)) l else take (Z.to_nat k) l.

(** [l[-n:]] for a positive literal [n]. *)
Definition slice_last {A} (n : nat) (l : list A) : list A :=
  drop (length l - n) l.

(** [s.rfind(c)] for a one-character needle: the highest index holding
    [c], or -1. *)
Fixpoint rfind (s : pystr) (c : char) : Z :=
  match s with
  | [] => -1
  | x :: s' =>
      let r := rfind s' c in
      if 0 <=? r then r + 1 else if N.eqb x c then 0 else -1
  end.

(** The list read by [d[k]] once the key is known to exist, or on a
    [defaultdict(list)] (empty for a missing key). *)
Definition item {A} (k : Z) (d : gmap Z (list A)) : list A := default [] (d !! k).

(** [sep.join(parts)]. *)
Fixpoint join (sep : pystr) (parts : list pystr) : pystr :=
  match parts with
  | [] => []
  | [p] => p
  | p :: ps => p ++ sep ++ join sep ps
  end.

(** Exceptions carry what [str(e)] shows. *)
Inductive exn := Exn (descr : pystr).
Definition str_exn (e : exn) : pystr := let 'Exn d := e in d.

Inductive Res (A : Type) :=
| Ok (a : A)
| Raise (e : exn).
Arguments Ok {A} a.
Arguments Raise {A} e.

(** *** Floats: IEEE 754 binary64, round to nearest even *)

Definition prec : Z := 53.
Definition emax : Z := 1024.
Abbreviation float := spec_float (only parsing).

(** [float(z)], as done implicitly by [int * float]; CPython raises
    [OverflowError] when the rounded value is out of range. *)
Definition float_of_int (z : Z) : Res float :=
  match binary_normalize prec emax z 0 false with
  | S754_infinity _ => Raise (Exn (lit "int too large to convert to float"))
  | f => Ok f
  end.

(** The literal [0.7]: the double nearest to 7/10. *)
Definition f0_7 : float := S754_finite false 6305039478318694 (-53).

Definition fmul (x y : float) : float := SFmul prec emax x y.

(** [c > x] for an int [c] and a float [x]; Python compares the exact
    values. *)
Definition int_gt_float (c : Z) (x : float) : bool :=
  match x with
  | S754_zero _ => 0 <? c
  | S754_infinity s => s
  | S754_nan => false
  | S754_finite s m e =>
      let v := if s then Z.neg m else Z.pos m in
      if 0 <=? e then v * 2 ^ e <? c else v <? c * 2 ^ (- e)
  end.

End Py.
Import Py.

(** ** config.py *)

(** The settings that the handlers read. *)
Record Config := {
  admin_id : Z;
  max_message_length : Z;
  max_image_size : Z;
  rate_limit_messages : Z;
  rate_limit_window : Z
}.

(** [Config.__init__] with [ADMIN_ID] read from the environment. *)
Definition Config_init (env_admin_id : Z) : Config := {|
  admin_id := env_admin_id;
  max_message_length := 4096;
  max_image_size := 20 * 1024 * 1024;
  rate_limit_messages := 10;
  rate_limit_window := 60
|}.

(** ** utils.py *)

Module Utils.

(** The character class of the [re.sub] in [format_message]. *)
Definition reserved : pystr := lit "_*[]()~`>#+-=|{}.!" ++ [BACKSLASH].

Definition is_reserved (c : char) : bool := bool_decide (c ∈ reserved).

(** [re.sub(r'([...])', r'\\\1', text)]: every character of the class is
    replaced by a backslash followed by itself. *)
Fixpoint re_sub_escape (text : pystr) : pystr :=
  match text with
  | [] => []
  | c :: t => if is_reserved c then BACKSLASH :: c :: re_sub_escape t
              else c :: re_sub_escape t
  end.

Definition fallback : pystr := lit "No response generated.".
Definition marker : pystr := [LF; LF] ++ lit "... (truncated)".

Definition format_message (text : pystr) (max_length : Z) : Res pystr :=
  match text with
  | [] => Ok fallback
  | _ =>
      let text := re_sub_escape text in
      if max_length <? len text then
        let truncated := slice_to text (max_length - 100) in
        let last_period := rfind truncated DOT in
        let last_newline := rfind truncated LF in
        let cut_point := Z.max last_period last_newline in
        match float_of_int max_length with
        | Raise e => Raise e
        | Ok fl =>
            if int_gt_float cut_point (fmul fl f0_7)
            then Ok (slice_to text (cut_point + 1) ++ marker)
            else Ok (slice_to text (max_length - 15) ++ marker)
        end
      else Ok text
  end.

Definition is_admin (user_id admin_id : Z) : bool := bool_decide (user_id = admin_id).

(** Instants are [datetime] values counted in microseconds. *)
Abbreviation instant := Z (only parsing).
Definition timedelta_seconds (s : Z) : Z := s * 1000000.

(** [rate_limit_check]; [now] is the reading of [datetime.now()] and the
    mutated dict is returned next to the result. *)
Definition rate_limit_check (user_id : Z) (user_requests : gmap Z (list instant))
    (config : Config) (now : instant) : bool * gmap Z (list instant) :=
  let window_start := now - timedelta_seconds (rate_limit_window config) in
  let user_requests :=
    match user_requests !! user_id with
    | Some reqs => <[user_id := filter (λ req_time, window_start < req_time) reqs]> user_requests
    | None => <[user_id := []]> user_requests
    end in
  let reqs := item user_id user_requests in
  if rate_limit_messages config <=? len reqs then (false, user_requests)
  else (true, <[user_id := reqs ++ [now]]> user_requests).

End Utils.
Import Utils.


(** ** gemini_handler.py *)

Module Gemini.

Abbreviation bytes := (list Byte.byte) (only parsing).

Inductive Model := text_model | vision_model | image_gen_model.

(** What is handed to [client.models.generate_content]. *)
Inductive Contents :=
| Prompt (p : pystr)
| Turns (ts : list (pystr * pystr))
| ImageAndPrompt (data : bytes) (p : pystr).

Record Part := { part_text : option pystr; inline_data : option bytes }.

(** A response: its [text], and the [content.parts] of each candidate
    ([None] when the content or its parts are missing). *)
Record Response := {
  text : option pystr;
  candidates : list (option (list Part))
}.

(** The client library: it answers or raises. *)
Definition Sdk := Model -> Contents -> Res Response.

(** [x or d] on an optional string. *)
Definition str_or (x : option pystr) (d : pystr) : pystr :=
  match x with
  | Some (c :: t) => c :: t
  | _ => d
  end.

Definition no_response : pystr := lit "Sorry, I couldn't generate a response.".
Definition no_analysis : pystr := lit "Sorry, I couldn't analyze this image.".
Definition default_analysis_prompt : pystr :=
  lit "Analyze this image in detail. Describe what you see, including objects, "
  ++ lit "people, activities, colors, composition, and any notable aspects. "
  ++ lit "Provide a comprehensive analysis.".

Definition generate_response (sdk : Sdk) (prompt context : pystr) : pystr :=
  let full_prompt :=
    match context with
    | [] => prompt
    | _ => context ++ [LF; LF] ++ lit "User: " ++ prompt
    end in
  match sdk text_model (Prompt full_prompt) with
  | Ok response => str_or (text response) no_response
  | Raise e => lit "Error: " ++ str_exn e
  end.

Definition analyze_image (sdk : Sdk) (image_bytes : bytes) (prompt : pystr) : pystr :=
  let analysis_prompt :=
    match prompt with
    | [] => default_analysis_prompt
    | _ => prompt
    end in
  match sdk vision_model (ImageAndPrompt image_bytes analysis_prompt) with
  | Ok response => str_or (text response) no_analysis
  | Raise e => lit "Error analyzing image: " ++ str_exn e
  end.

(** The loop over [content.parts]: texts are concatenated, the last
    non-empty inline data wins. *)
Fixpoint scan_parts (parts : list Part) (image_data : option bytes) (description : pystr)
    : option bytes * pystr :=
  match parts with
  | [] => (image_data, description)
  | part :: rest =>
      match part_text part with
      | Some (c :: t) => scan_parts rest image_data (description ++ c :: t)
      | _ =>
          match inline_data part with
          | Some (b :: d) => scan_parts rest (Some (b :: d)) description
          | _ => scan_parts rest image_data description
          end
      end
  end.

Definition generate_image (sdk : Sdk) (prompt : pystr) : option bytes * pystr :=
  match sdk image_gen_model (Prompt (lit "Generate an image: " ++ prompt)) with
  | Ok response =>
      match candidates response with
      | [] => (None, lit "No image generated")
      | content :: _ =>
          match content with
          | None | Some [] => (None, lit "No image content received")
          | Some parts =>
              match scan_parts parts None [] with
              | (Some (b :: d), description) =>
                  (Some (b :: d),
                   match description with
                   | [] => lit "Image generated successfully"
                   | _ => description
                   end)
              | _ => (None, lit "No image data received")
              end
          end
      end
  | Raise e => (None, lit "Error generating image: " ++ str_exn e)
  end.

Inductive Role := role_user | role_assistant.

Record Turn := { role : Role; content : pystr; timestamp : instant }.

Definition chat_with_context (sdk : Sdk) (messages : list Turn) : pystr :=
  let contents :=
    map (λ msg, (match role msg with
                 | role_user => lit "user"
                 | role_assistant => lit "model"
                 end, content msg)) (slice_last 10 messages) in
  match sdk text_model (Turns contents) with
  | Ok response => str_or (text response) no_response
  | Raise e => lit "Error: " ++ str_exn e
  end.

(** [preprocess_image]: the PIL pipeline, failing open. *)
Definition preprocess_image (pil : bytes -> Res bytes) (image_bytes : bytes) : bytes :=
  match pil image_bytes with
  | Ok out => out
  | Raise _ => image_bytes
  end.

End Gemini.
Import Gemini.

(** ** Telegram: what a handler receives and what it calls *)

Module Telegram.

Record User := { id : Z; first_name : pystr }.

Record PhotoSize := { file_size : option Z }.

(** The updates routed by [setup_handlers]. *)
Inductive Update :=
| Start (u : User)
| Help (u : User)
| Generate (u : User) (args : list pystr)
| Status (u : User)
| Clear (u : User)
| Admin (u : User)
| StatsCmd (u : User)
| TextMessage (u : User) (message_text : pystr)
| Photo (u : User) (photo : list PhotoSize) (caption : option pystr)
| Callback (u : User) (data : pystr).

Inductive ParseMode := NoParseMode | MARKDOWN.
Inductive ChatAction := TYPING | UPLOAD_PHOTO.
Inductive Keyboard := NoKeyboard | PanelKeyboard | BackKeyboard.

Record Stats := {
  messages_processed : Z;
  images_analyzed : Z;
  images_generated : Z;
  errors : Z;
  uptime_start : instant
}.

(** Host figures shown by the system view. *)
Record HostInfo := { cpu_percent : Z; memory_percent : Z; disk_percent : Z }.

(** Message bodies. Short literals and computed texts are spelled out;
    the long templates are kept as the data they interpolate. *)
Inductive Msg :=
| Text (t : pystr)
| Welcome (first_name : pystr) (admin_commands : bool)
| HelpText
| StatusText (now start : instant) (s : Stats)
| DetailedStats (now : instant) (s : Stats) (active_users total_conversations : Z)
| SystemInfo (h : Res HostInfo)
| Settings.

(** Calls into the Telegram client made while handling one update. *)
Inductive Call :=
| reply_text (m : Msg) (pm : ParseMode) (kb : Keyboard)
| reply_chat_action (a : ChatAction)
| reply_photo (photo : bytes) (caption : pystr)
| edit_text (m : Msg) (pm : ParseMode)
| delete
| get_file
| download_as_bytearray
| answer
| edit_message_text (m : Msg) (pm : ParseMode) (kb : Keyboard).

End Telegram.
Import Telegram.

(** ** Running one handler *)

Module Run.

Record Bot := {
  config : Config;
  start_time : instant;
  user_contexts : gmap Z (list Turn);
  user_requests : gmap Z (list instant);
  stats : Stats
}.

(** [TelegramBot.__init__] at instant [t]. *)
Definition Bot_init (c : Config) (t : instant) : Bot := {|
  config := c;
  start_time := t;
  user_contexts := ∅;
  user_requests := ∅;
  stats := {| messages_processed := 0; images_analyzed := 0;
              images_generated := 0; errors := 0; uptime_start := t |}
|}.

(** What the outside answers during one handling: the successive readings
    of [datetime.now()], whether the k-th Telegram call raises, the Gemini
    client, the downloaded file, PIL and psutil. *)
Record Env := {
  clock : nat → instant;
  transport : nat → option exn;
  sdk : Sdk;
  file_bytes : bytes;
  pil : bytes → Res bytes;
  psutil_import : option exn;
  host : Res HostInfo
}.

Record World := {
  bot : Bot;
  calls : list Call;
  ticks : nat
}.

(** State and exceptions. *)
Definition M (A : Type) : Type := Env → World → Res A * World.

#[export] Instance M_ret : MRet M := λ A a _ w, (Ok a, w).

#[export] Instance M_bind : MBind M := λ A B k m env w,
  match m env w with
  | (Ok a, w') => k a env w'
  | (Raise e, w') => (Raise e, w')
  end.

Definition raise {A} (e : exn) : M A := λ _ w, (Raise e, w).

(** [try: body  except Exception as e: handler e]. *)
Definition try_except {A} (body : M A) (handler : exn → M A) : M A := λ env w,
  match body env w with
  | (Ok a, w') => (Ok a, w')
  | (Raise e, w') => handler e env w'
  end.

Definition lift {A} (r : Res A) : M A := λ _ w, (r, w).

Definition ask : M Env := λ env w, (Ok env, w).

Definition get : M Bot := λ _ w, (Ok (bot w), w).

Definition modify (f : Bot → Bot) : M unit := λ _ w,
  (Ok tt, {| bot := f (bot w); calls := calls w; ticks := ticks w |}).

(** [datetime.now()]. *)
Definition now : M instant := λ env w,
  (Ok (clock env (ticks w)), {| bot := bot w; calls := calls w; ticks := S (ticks w) |}).

(** [await] of one Telegram call. *)
Definition tg (c : Call) : M unit := λ env w,
  let w' := {| bot := bot w; calls := calls w ++ [c]; ticks := ticks w |} in
  match transport env (length (calls w)) with
  | Some e => (Raise e, w')
  | None => (Ok tt, w')
  end.

End Run.
Import Run.


(** ** admin_controls.py *)

Module AdminControls.

Definition admin_text : pystr :=
  [128295%N] ++ lit " **Admin Control Panel**" ++ [LF] ++ [LF]
  ++ lit "Select an option to manage the bot:".
Definition access_denied : pystr :=
  [10060%N] ++ lit " Access denied. Admin only.".
Definition stats_hint : pystr :=
  [128202%N] ++ lit " Use /stats command for detailed statistics.".
Definition users_hint : pystr :=
  [128101%N] ++ lit " User information feature requires bot context.".
Definition restart_text : pystr :=
  [128260%N] ++ lit " **Restart Bot**" ++ [LF] ++ [LF] ++ [9888%N] ++ [65039%N]
  ++ lit " Bot restart functionality requires manual intervention." ++ [LF]
  ++ lit "Please restart the bot process manually.".
Definition clear_logs_text : pystr :=
  [128465%N] ++ [65039%N] ++ lit " **Clear Logs**" ++ [LF] ++ [LF] ++ [9888%N] ++ [65039%N]
  ++ lit " Log clearing requires manual file system access." ++ [LF]
  ++ lit "Please clear log files manually if needed.".
Definition panel_closed : pystr :=
  [128295%N] ++ lit " Admin panel closed.".
Definition error_prefix : pystr :=
  [10060%N] ++ lit " Error: ".

(** [show_admin_panel]; [from_callback] tells whether the update carries
    a callback query. *)
Definition show_admin_panel (from_callback : bool) : M unit :=
  if from_callback then tg (edit_message_text (Text admin_text) MARKDOWN PanelKeyboard)
  else tg (reply_text (Text admin_text) MARKDOWN PanelKeyboard).

(** [show_detailed_stats], as called from the [/stats] command. *)
Definition show_detailed_stats (from_callback : bool) (stats : Stats)
    (user_contexts : gmap Z (list Turn)) : M unit :=
  t ← now;
  let active_users := Z.of_nat (size user_contexts) in
  let total_conversations :=
    map_fold (λ _ contexts acc, len contexts + acc) 0 user_contexts in
  let stats_text := DetailedStats t stats active_users total_conversations in
  if from_callback then tg (edit_message_text stats_text MARKDOWN BackKeyboard)
  else tg (reply_text stats_text MARKDOWN BackKeyboard).

(** [show_system_info]: the imports come before its own [try]. *)
Definition show_system_info : M unit :=
  env ← ask;
  match psutil_import env with
  | Some e => raise e
  | None => tg (edit_message_text (SystemInfo (host env)) MARKDOWN BackKeyboard)
  end.

Definition show_settings : M unit :=
  tg (edit_message_text Settings MARKDOWN BackKeyboard).

Definition handle_callback (admin_id : Z) (user : User) (data : pystr) : M unit :=
  tg answer;;
  let user_id := id user in
  if bool_decide (user_id ≠ admin_id)
  then tg (edit_message_text (Text access_denied) NoParseMode NoKeyboard)
  else
    try_except
      (if bool_decide (data = lit "admin_back") then show_admin_panel true
       else if bool_decide (data = lit "admin_stats") then
         tg (edit_message_text (Text stats_hint) NoParseMode NoKeyboard)
       else if bool_decide (data = lit "admin_users") then
         tg (edit_message_text (Text users_hint) NoParseMode NoKeyboard)
       else if bool_decide (data = lit "admin_system") then show_system_info
       else if bool_decide (data = lit "admin_settings") then show_settings
       else if bool_decide (data = lit "admin_restart") then
         tg (edit_message_text (Text restart_text) NoParseMode NoKeyboard)
       else if bool_decide (data = lit "admin_clear_logs") then
         tg (edit_message_text (Text clear_logs_text) NoParseMode NoKeyboard)
       else if bool_decide (data = lit "admin_close") then
         tg (edit_message_text (Text panel_closed) NoParseMode NoKeyboard)
       else mret tt)
      (λ e, tg (edit_message_text (Text (error_prefix ++ str_exn e)) NoParseMode NoKeyboard)).

End AdminControls.

(** ** bot.py *)

Module Bot.

Definition rate_limit_warning : pystr :=
  [9888%N] ++ [65039%N] ++ lit " You're sending requests too quickly. Please wait a moment.".
Definition prompt_missing : pystr :=
  lit "Please provide a prompt for image generation." ++ [LF]
  ++ lit "Example: `/generate a beautiful sunset over mountains`".
Definition generating : pystr :=
  [127912%N] ++ lit " Generating your image, please wait...".
Definition caption_head : pystr :=
  [127912%N] ++ lit " **Generated Image**" ++ [LF] ++ [LF] ++ lit "**Prompt:** ".
Definition failed_generate : pystr :=
  [10060%N] ++ lit " Failed to generate image: ".
Definition error_generating : pystr :=
  [10060%N] ++ lit " Error generating image: ".
Definition context_cleared : pystr :=
  [128465%N] ++ [65039%N] ++ lit " Conversation context cleared! Starting fresh.".
Definition sorry_error : pystr :=
  [10060%N] ++ lit " Sorry, I encountered an error: ".
Definition analyzing : pystr :=
  [128269%N] ++ lit " Analyzing your image, please wait...".
Definition too_large : pystr :=
  [10060%N] ++ lit " Image is too large. Maximum size is 20MB.".
Definition error_analyzing : pystr :=
  [10060%N] ++ lit " Error analyzing image: ".
Definition access_denied : pystr :=
  [10060%N] ++ lit " Access denied. Admin only.".
Definition analysis_head : pystr :=
  [128269%N] ++ lit " **Image Analysis**" ++ [LF] ++ [LF].
Definition your_caption : pystr :=
  [128221%N] ++ lit " **Your caption:** ".

(** *** Field updates of the bot object *)

Definition set_user_contexts (f : gmap Z (list Turn) → gmap Z (list Turn)) (b : Bot) : Bot :=
  {| config := config b; start_time := start_time b;
     user_contexts := f (user_contexts b);
     user_requests := user_requests b; stats := stats b |}.

Definition set_user_requests (r : gmap Z (list instant)) (b : Bot) : Bot :=
  {| config := config b; start_time := start_time b;
     user_contexts := user_contexts b;
     user_requests := r; stats := stats b |}.

Definition set_stats (f : Stats → Stats) (b : Bot) : Bot :=
  {| config := config b; start_time := start_time b;
     user_contexts := user_contexts b;
     user_requests := user_requests b; stats := f (stats b) |}.

(** [self.stats[key] += 1], one definition per key. *)
Definition incr_messages_processed (s : Stats) : Stats :=
  {| messages_processed := messages_processed s + 1; images_analyzed := images_analyzed s;
     images_generated := images_generated s; errors := errors s;
     uptime_start := uptime_start s |}.
Definition incr_images_analyzed (s : Stats) : Stats :=
  {| messages_processed := messages_processed s; images_analyzed := images_analyzed s + 1;
     images_generated := images_generated s; errors := errors s;
     uptime_start := uptime_start s |}.
Definition incr_images_generated (s : Stats) : Stats :=
  {| messages_processed := messages_processed s; images_analyzed := images_analyzed s;
     images_generated := images_generated s + 1; errors := errors s;
     uptime_start := uptime_start s |}.
Definition incr_errors (s : Stats) : Stats :=
  {| messages_processed := messages_processed s; images_analyzed := images_analyzed s;
     images_generated := images_generated s; errors := errors s + 1;
     uptime_start := uptime_start s |}.

(** [d[k].append(x)] on a [defaultdict(list)]. *)
Definition append_item {A} (k : Z) (x : A) (d : gmap Z (list A)) : gmap Z (list A) :=
  <[k := item k d ++ [x]]> d.

(** [d[k].clear()]. *)
Definition clear_item {A} (k : Z) (d : gmap Z (list A)) : gmap Z (list A) :=
  <[k := []]> d.

(** [d[k] = d[k][-20:]]. *)
Definition keep_last_20 {A} (k : Z) (d : gmap Z (list A)) : gmap Z (list A) :=
  <[k := slice_last 20 (item k d)]> d.

(** The check that opens three handlers: [rate_limit_check] on
    [self.user_requests], at the next clock reading. *)
Definition check_rate (user_id : Z) : M bool :=
  b ← get;
  t ← now;
  let '(ok, reqs) := rate_limit_check user_id (user_requests b) (config b) t in
  modify (set_user_requests reqs);;
  mret ok.

Definition start_command (user : User) : M unit :=
  b ← get;
  tg (reply_text (Welcome (first_name user) (is_admin (id user) (admin_id (config b))))
                 MARKDOWN NoKeyboard).

Definition help_command : M unit :=
  tg (reply_text HelpText MARKDOWN NoKeyboard).

Definition generate_command (user : User) (args : list pystr) : M unit :=
  let user_id := id user in
  ok ← check_rate user_id;
  if negb ok then tg (reply_text (Text rate_limit_warning) NoParseMode NoKeyboard)
  else
    let prompt := join (lit " ") args in
    match prompt with
    | [] => tg (reply_text (Text prompt_missing) MARKDOWN NoKeyboard)
    | _ =>
        tg (reply_chat_action UPLOAD_PHOTO);;
        tg (reply_text (Text generating) NoParseMode NoKeyboard);;
        try_except
          (env ← ask;
           let '(image_data, description) := generate_image (sdk env) prompt in
           match image_data with
           | Some (b :: d) =>
               tg (reply_photo (b :: d)
                     (caption_head ++ prompt ++ [LF; LF] ++ description));;
               modify (set_stats incr_images_generated);;
               tg delete
           | _ =>
               tg (edit_text (Text (failed_generate ++ description)) NoParseMode);;
               modify (set_stats incr_errors)
           end)
          (λ e,
             tg (edit_text (Text (error_generating ++ str_exn e)) NoParseMode);;
             modify (set_stats incr_errors))
    end.

Definition status_command : M unit :=
  t ← now;
  b ← get;
  tg (reply_text (StatusText t (start_time b) (stats b)) MARKDOWN NoKeyboard).

Definition clear_command (user : User) : M unit :=
  let user_id := id user in
  modify (set_user_contexts (clear_item user_id));;
  tg (reply_text (Text context_cleared) NoParseMode NoKeyboard).

Definition handle_message (user : User) (message_text : pystr) : M unit :=
  let user_id := id user in
  ok ← check_rate user_id;
  if negb ok then tg (reply_text (Text rate_limit_warning) NoParseMode NoKeyboard)
  else
    tg (reply_chat_action TYPING);;
    try_except
      (t ← now;
       modify (set_user_contexts (append_item user_id
         {| role := role_user; content := message_text; timestamp := t |}));;
       modify (set_user_contexts (keep_last_20 user_id));;
       b ← get;
       env ← ask;
       let context := item user_id (user_contexts b) in
       let response :=
         if 1 <? len context then chat_with_context (sdk env) context
         else generate_response (sdk env) message_text [] in
       t' ← now;
       modify (set_user_contexts (append_item user_id
         {| role := role_assistant; content := response; timestamp := t' |}));;
       formatted_response ← lift (format_message response (max_message_length (config b)));
       tg (reply_text (Text formatted_response) MARKDOWN NoKeyboard);;
       modify (set_stats incr_messages_processed))
      (λ e,
         tg (reply_text (Text (sorry_error ++ str_exn e)) NoParseMode NoKeyboard);;
         modify (set_stats incr_errors)).

(** [photo.file_size > self.config.max_image_size]; comparing [None]
    with an int raises [TypeError]. *)
Definition size_exceeds (size : option Z) (limit : Z) : Res bool :=
  match size with
  | Some n => Ok (limit <? n)
  | None => Raise (Exn (lit "'>' not supported between instances of 'NoneType' and 'int'"))
  end.

(** [update.message.photo[-1]]. *)
Definition last_photo (photo : list PhotoSize) : Res PhotoSize :=
  match last photo with
  | Some p => Ok p
  | None => Raise (Exn (lit "tuple index out of range"))
  end.

Definition handle_photo (user : User) (photo : list PhotoSize) (caption : option pystr) : M unit :=
  let user_id := id user in
  ok ← check_rate user_id;
  if negb ok then tg (reply_text (Text rate_limit_warning) NoParseMode NoKeyboard)
  else
    tg (reply_chat_action TYPING);;
    tg (reply_text (Text analyzing) NoParseMode NoKeyboard);;
    try_except
      (b ← get;
       env ← ask;
       photo ← lift (last_photo photo);
       big ← lift (size_exceeds (file_size photo) (max_image_size (config b)));
       if (big : bool) then tg (edit_text (Text too_large) NoParseMode)
       else
         tg get_file;;
         tg download_as_bytearray;;
         let processed_image := preprocess_image (pil env) (file_bytes env) in
         let caption := str_or caption [] in
         let analysis_prompt :=
           match caption with
           | [] => []
           | _ => lit "User caption: " ++ caption ++ [LF; LF] ++ lit "Please analyze this image."
           end in
         let analysis := analyze_image (sdk env) processed_image analysis_prompt in
         let analysis_text := analysis_head ++ analysis in
         let analysis_text :=
           match caption with
           | [] => analysis_text
           | _ => your_caption ++ caption ++ [LF; LF] ++ analysis_text
           end in
         formatted_analysis ← lift (format_message analysis_text (max_message_length (config b)));
         tg (edit_text (Text formatted_analysis) MARKDOWN);;
         modify (set_stats incr_images_analyzed))
      (λ e,
         tg (edit_text (Text (error_analyzing ++ str_exn e)) NoParseMode);;
         modify (set_stats incr_errors)).

Definition admin_command (user : User) : M unit :=
  let user_id := id user in
  b ← get;
  if negb (is_admin user_id (admin_id (config b)))
  then tg (reply_text (Text access_denied) NoParseMode NoKeyboard)
  else AdminControls.show_admin_panel false.

Definition stats_command (user : User) : M unit :=
  let user_id := id user in
  b ← get;
  if negb (is_admin user_id (admin_id (config b)))
  then tg (reply_text (Text access_denied) NoParseMode NoKeyboard)
  else AdminControls.show_detailed_stats false (stats b) (user_contexts b).

(** [setup_handlers]: which handler an update reaches. The callback
    handler belongs to [AdminControls(config.admin_id)]. *)
Definition dispatch (u : Update) : M unit :=
  match u with
  | Start user => start_command user
  | Help _ => help_command
  | Generate user args => generate_command user args
  | Status _ => status_command
  | Clear user => clear_command user
  | Admin user => admin_command user
  | StatsCmd user => stats_command user
  | TextMessage user message_text => handle_message user message_text
  | Photo user photo caption => handle_photo user photo caption
  | Callback user data =>
      b ← get;
      AdminControls.handle_callback (admin_id (config b)) user data
  end.

(** One update handled from start to end in the environment [env]. *)
Definition run {A} (m : M A) (env : Env) (b : Bot) : Res A * World :=
  m env {| bot := b; calls := []; ticks := 0 |}.

Definition handle (b : Bot) (u : Update) (env : Env) : Bot :=
  bot (run (dispatch u) env b).2.

(** The updates are handled one after the other; an exception that
    leaves a handler is logged by the framework and the loop goes on. *)
Fixpoint handle_all (b : Bot) (us : list (Update * Env)) : Bot :=
  match us with
  | [] => b
  | (u, env) :: rest => handle_all (handle b u env) rest
  end.

(** The spec's [history(userId)]. *)
Definition history (b : Bot) (user_id : Z) : list Turn :=
  item user_id (user_contexts b).

End Bot.
Import Bot.

(** ** Definitions used to state the properties *)

Module Spec.

(** A run of checks for one user at the given instants: the answers and
    the request log left behind. *)
Fixpoint check_all (user_id : Z) (config : Config) (user_requests : gmap Z (list instant))
    (times : list instant) : list bool * gmap Z (list instant) :=
  match times with
  | [] => ([], user_requests)
  | t :: ts =>
      let '(ok, r) := rate_limit_check user_id user_requests config t in
      let '(oks, r') := check_all user_id config r ts in
      (ok :: oks, r')
  end.

(** A text is well escaped when it reads, left to right, as characters
    outside the reserved class and pairs made of a backslash and the
    reserved character it escapes. A reserved character without its
    backslash, or a backslash at the very end, is refused. *)
Fixpoint well_escaped (out : pystr) : bool :=
  match out with
  | [] => true
  | c :: t =>
      if N.eqb c BACKSLASH then
        match t with
        | c' :: t' => is_reserved c' && well_escaped t'
        | [] => false
        end
      else negb (is_reserved c) && well_escaped t
  end.

(** The places where [format_message] looks for a cut: a period or a
    line break. *)
Definition is_boundary (c : char) : Prop := c = DOT ∨ c = LF.

(** [c] is the index of the last boundary of [s], or -1 when [s] has
    none. *)
Definition is_last_boundary (s : pystr) (c : Z) : Prop :=
  (c = -1 ∧ ∀ (i : nat) ch, s !! i = Some ch → ¬ is_boundary ch)
  ∨ (∃ (i : nat) ch, c = Z.of_nat i ∧ s !! i = Some ch ∧ is_boundary ch
       ∧ ∀ (j : nat) ch', (i < j)%nat → s !! j = Some ch' → ¬ is_boundary ch').

(** The [cut_point] computed by [format_message] on the escaped text. *)
Definition cut_point (escaped : pystr) (max_length : Z) : Z :=
  let truncated := slice_to escaped (max_length - 100) in
  Z.max (rfind truncated DOT) (rfind truncated LF).

(** The test [cut_point > max_length * 0.7] as the code evaluates it. *)
Definition past_threshold (c max_length : Z) : Res bool :=
  match float_of_int max_length with
  | Ok fl => Ok (int_gt_float c (fmul fl f0_7))
  | Raise e => Raise e
  end.

(** Whether the threshold test at [max_length] separates the integers
    exactly at seven tenths of [max_length]: it refuses the integer part
    of [7 * max_length / 10] and accepts the next integer. *)
Definition threshold_exact (max_length : Z) : bool :=
  match past_threshold (7 * max_length / 10) max_length,
        past_threshold (7 * max_length / 10 + 1) max_length with
  | Ok false, Ok true => true
  | _, _ => false
  end.

(** An environment where every call goes through and the model answers. *)
Definition quiet_env : Env := {|
  clock := λ k, 1000000 * Z.of_nat k;
  transport := λ _, None;
  sdk := λ _ _, Ok {| text := Some (lit "Hello."); candidates := [] |};
  file_bytes := [];
  pil := λ data, Ok data;
  psutil_import := None;
  host := Ok {| cpu_percent := 1; memory_percent := 2; disk_percent := 3 |}
|}.


(** The rate limiter lets the update of [user_id] through: the answer of
    [rate_limit_check] at the first clock reading of the handling. *)
Definition accepted (b : Bot) (user_id : Z) (env : Env) : Prop :=
  (rate_limit_check user_id (user_requests b) (config b) (clock env 0%nat)).1 = true.

(** The request log of [user_id] once an accepted check at [now] has
    been recorded. *)
Definition log_after_accept (b : Bot) (user_id : Z) (now : Z) : list Z :=
  filter (λ t, now - timedelta_seconds (rate_limit_window (config b)) < t)
         (item user_id (user_requests b)) ++ [now].

(** The turns that handling one text message appends, and the reply the
    model layer hands back, as [handle_message] computes them. *)
Definition user_turn (message_text : list N) (env : Env) : Turn :=
  {| role := role_user; content := message_text; timestamp := clock env 1%nat |}.

Definition context_sent (b : Bot) (user : User) (message_text : list N) (env : Env) : list Turn :=
  slice_last 20 (history b (id user) ++ [user_turn message_text env]).

Definition response_of (b : Bot) (user : User) (message_text : list N) (env : Env) : list N :=
  let context := context_sent b user message_text env in
  if 1 <? len context then chat_with_context (sdk env) context
  else generate_response (sdk env) message_text [].

Definition assistant_turn (b : Bot) (user : User) (message_text : list N) (env : Env) : Turn :=
  {| role := role_assistant; content := response_of b user message_text env;
     timestamp := clock env 2%nat |}.

(** An environment whose model client raises on every request. *)
Definition failing_env : Env := {|
  clock := λ k, 1000000 * Z.of_nat k;
  transport := λ _, None;
  sdk := λ _ _, Raise (Exn (lit "503 UNAVAILABLE"));
  file_bytes := [];
  pil := λ data, Ok data;
  psutil_import := None;
  host := Ok {| cpu_percent := 1; memory_percent := 2; disk_percent := 3 |}
|}.

(** A bot where user 7 already has twenty turns on record. *)
Definition full_bot : Bot := {|
  config := Config_init 42;
  start_time := 0;
  user_contexts :=
    {[ 7 := replicate 20 {| role := role_user; content := lit "hi"; timestamp := -1 |} ]};
  user_requests := ∅;
  stats := {| messages_processed := 10; images_analyzed := 0;
              images_generated := 0; errors := 0; uptime_start := 0 |}
|}.

(** A handler step keeps the relation [R] between the bot before and
    the bot after, in every environment and from every world. *)
Definition preserves (R : Bot → Bot → Prop) {A} (m : M A) : Prop :=
  ∀ env w, R (bot w) (bot (m env w).2).

(** No counter has gone down, and the start instants are the same. *)
Definition counters_le (b b' : Bot) : Prop :=
  messages_processed (stats b) ≤ messages_processed (stats b')
  ∧ images_analyzed (stats b) ≤ images_analyzed (stats b')
  ∧ images_generated (stats b) ≤ images_generated (stats b')
  ∧ errors (stats b) ≤ errors (stats b')
  ∧ uptime_start (stats b') = uptime_start (stats b)
  ∧ start_time b' = start_time b.

(** The conversation store is the same after as before. *)
Definition same_contexts (b b' : Bot) : Prop := user_contexts b' = user_contexts b.

End Spec.
Import Spec.


(** ** utils.py, the other helpers *)

Module UtilsRest.

(** [escape_chars] of [escape_markdown_v2]: the class of
    [format_message] without the backslash. *)
Definition escape_chars : list N := lit "_*[]()~`>#+-=|{}.!".

(** [''.join(f'\\{char}' if char in escape_chars else char for char in text)]. *)
Fixpoint escape_markdown_v2 (text : list N) : list N :=
  match text with
  | [] => []
  | char :: t =>
      (if bool_decide (char ∈ escape_chars) then [BACKSLASH; char] else [char])
      ++ escape_markdown_v2 t
  end.

(** [truncate_text]; the source's default suffix is ["..."]. *)
Definition truncate_text (text : list N) (max_length : Z) (suffix : list N) : list N :=
  if len text <=? max_length then text
  else slice_to text (max_length - len suffix) ++ suffix.

Definition UNDERSCORE : N := 95%N.
Definition HYPHEN : N := 45%N.

Section SanitizeFilename.

(** The class [\w] of Python's [re] on [str]: the Unicode word
    characters, a table of the interpreter. *)
Variable word_char : N → bool.

(** A character outside [[^\w\-_\.]], that is one the substitution
    leaves alone. *)
Definition safe_char (c : N) : bool :=
  word_char c || N.eqb c HYPHEN || N.eqb c UNDERSCORE || N.eqb c DOT.

(** [filename.rsplit('.', 1)] for a name holding a period. *)
Definition rsplit_dot (filename : list N) : list N * list N :=
  let i := Z.to_nat (rfind filename DOT) in
  (take i filename, drop (S i) filename).

Definition sanitize_filename (filename : list N) : list N :=
  let filename := map (λ c, if safe_char c then c else UNDERSCORE) filename in
  if 255 <? len filename then
    let '(name, ext) :=
      if bool_decide (DOT ∈ filename) then rsplit_dot filename else (filename, []) in
    slice_to name 250 ++ match ext with
                         | [] => []
                         | _ => DOT :: ext
                         end
  else filename.

End SanitizeFilename.

End UtilsRest.
Import UtilsRest.

(** Sample values used to instantiate the properties below. *)
Module Sample.

(** The ASCII part of [\w]: digits, letters and the underscore. *)
Definition ascii_word_char (c : N) : bool :=
  ((48 <=? c) && (c <=? 57) || (65 <=? c) && (c <=? 90)
   || (97 <=? c) && (c <=? 122) || (c =? 95))%N.

End Sample.
Import Sample.

(** ** Further definitions used to state properties *)

Module SpecRest.

(** The instants, among [times], of the checks answered [true]. *)
Fixpoint allowed_instants (times : list Z) (oks : list bool) : list Z :=
  match times, oks with
  | t :: ts, ok :: oks' => (if ok then [t] else []) ++ allowed_instants ts oks'
  | _, _ => []
  end.

(** The user an update comes from ([update.effective_user]). *)
Definition sender (u : Update) : User :=
  match u with
  | Start user | Help user | Generate user _ | Status user | Clear user
  | Admin user | StatsCmd user | TextMessage user _ | Photo user _ _
  | Callback user _ => user
  end.

(** The updates whose handlers only read the bot object. *)
Definition read_only (u : Update) : bool :=
  match u with
  | Start _ | Help _ | Status _ | Admin _ | StatsCmd _ | Callback _ _ => true
  | Generate _ _ | Clear _ | TextMessage _ _ | Photo _ _ _ => false
  end.

End SpecRest.
Import SpecRest.

(** ** webhook_server.py: the figures read by [/metrics] *)

Module Metrics.

(** [len(self.bot.user_contexts)]. *)
Definition active_users (b : Bot) : Z := Z.of_nat (size (user_contexts b)).

(** [sum(len(ctx) for ctx in self.bot.user_contexts.values())]. *)
Definition context_size_total (b : Bot) : Z :=
  map_fold (λ _ ctx acc, len ctx + acc) 0 (user_contexts b).

End Metrics.
Import Metrics.

Module SpecFrames.

(** The bot is exactly what it was. *)
Definition unchanged (b b' : Bot) : Prop := b' = b.

(** The entries of every user but [user_id], in the conversation store
    and in the request logs, are what they were. *)
Definition others_untouched (user_id : Z) (b b' : Bot) : Prop :=
  ∀ other, other ≠ user_id →
    user_contexts b' !! other = user_contexts b !! other
    ∧ user_requests b' !! other = user_requests b !! other.

(** No key has left the conversation store. *)
Definition users_kept (b b' : Bot) : Prop :=
  dom (user_contexts b) ⊆ dom (user_contexts b').

(** No request log is longer than the configured limit. *)
Definition logs_bounded (b : Bot) : Prop :=
  ∀ user_id, len (item user_id (user_requests b)) ≤ Z.max 0 (rate_limit_messages (config b)).

(** The configuration is kept, and with it the bound on the logs. *)
Definition keeps_logs_bounded (b b' : Bot) : Prop :=
  config b' = config b ∧ (logs_bounded b → logs_bounded b').

End SpecFrames.
Import SpecFrames.

Module SpecCalls.

(** The updates whose handler opens with the rate-limit check. *)
Definition rate_limited (u : Update) : bool :=
  match u with
  | Generate _ _ | TextMessage _ _ | Photo _ _ _ => true
  | _ => false
  end.

(** What only the admin is meant to see: the detailed statistics, the
    system and settings views, the admin lines of the welcome message,
    and every message carrying one of the panel keyboards. *)
Definition admin_body (m : Msg) : bool :=
  match m with
  | DetailedStats _ _ _ _ | SystemInfo _ | Settings | Welcome _ true => true
  | _ => false
  end.

Definition admin_view (c : Call) : bool :=
  match c with
  | reply_text m _ kb | edit_message_text m _ kb =>
      admin_body m || match kb with NoKeyboard => false | _ => true end
  | edit_text m _ => admin_body m
  | _ => false
  end.

(** An edit of the message that carries the panel. *)
Definition is_panel_edit (c : Call) : bool :=
  match c with
  | edit_message_text _ _ _ => true
  | _ => false
  end.

(** The callback data that [handle_callback] tells apart. *)
Definition known_callbacks : list (list N) :=
  [lit "admin_back"; lit "admin_stats"; lit "admin_users"; lit "admin_system";
   lit "admin_settings"; lit "admin_restart"; lit "admin_clear_logs"; lit "admin_close"].

(** Every Telegram call that a step makes satisfies [P]. *)
Definition emits (P : Call → Prop) {A} (m : M A) : Prop :=
  ∀ env w, ∃ new, calls (m env w).2 = calls w ++ new ∧ Forall P new.

(** The environment of [quiet_env] with the client library and the
    outcome of the Telegram calls replaced. *)
Definition env_with (s : Sdk) (tr : nat → option exn) : Env := {|
  clock := clock quiet_env;
  transport := tr;
  sdk := s;
  file_bytes := file_bytes quiet_env;
  pil := pil quiet_env;
  psutil_import := psutil_import quiet_env;
  host := host quiet_env
|}.

(** A client library that answers every request with one image part. *)
Definition image_sdk : Sdk := λ _ _,
  Ok {| text := None;
        candidates := [Some [{| part_text := None; inline_data := Some [Byte.x89; Byte.x50] |}]] |}.

(** A bot whose user 7 has used up the ten requests of the window. *)
Definition busy_bot : Bot := set_user_requests {[ 7 := replicate 10 0 ]} full_bot.

(** What [generate_image] takes from one part: its image, unless the
    part carries text; and its text. *)
Definition part_image (p : Part) : option (list Byte.byte) :=
  match part_text p with
  | Some (_ :: _) => None
  | _ =>
      match inline_data p with
      | Some (b :: d) => Some (b :: d)
      | _ => None
      end
  end.

Definition part_caption (p : Part) : list N := str_or (part_text p) [].

End SpecCalls.
Import SpecCalls.

(** ** Readings of the specification, to compare the code with *)

Module AsSpecified.

(** The limiter as the specification words it: the instants older than
    [now - window] are discarded (so one that is exactly a window old
    stays), the check is refused without recording [now] when as many
    as the limit remain, and [now] is recorded otherwise. *)
Definition allow (user_id : Z) (user_requests : gmap Z (list Z))
    (config : Config) (now : Z) : bool * gmap Z (list Z) :=
  let kept := filter (λ t, now - timedelta_seconds (rate_limit_window config) ≤ t)
                     (item user_id user_requests) in
  if rate_limit_messages config <=? len kept then (false, <[user_id := kept]> user_requests)
  else (true, <[user_id := kept ++ [now]]> user_requests).

(** What the message that carries the admin panel shows: its body and
    its keyboard. *)
Definition Panel : Type := Msg * Keyboard.

(** The panel once the calls [sent] have gone through: an edit of the
    message replaces its body and its keyboard (an edit made without
    [reply_markup] leaves no keyboard); no other call touches it. *)
Definition panel_shown (sent : list Call) (p : Panel) : Panel :=
  foldl (λ p c, match c with
                | edit_message_text m _ kb => (m, kb)
                | _ => p
                end) p sent.

End AsSpecified.
(** * Properties *)

(** ** The rate limiter *)

Section RateLimiter.

Variable config : Config.
Variable user_id : Z.

Let window := timedelta_seconds (rate_limit_window config).
Let limit := rate_limit_messages config.

(** The three steps of [rate_limit_check] in one equation. *)
Lemma rate_limit_check_eq (user_requests : gmap Z (list instant)) (now : instant) :
  let kept := filter (λ t, now - window < t) (item user_id user_requests) in
  rate_limit_check user_id user_requests config now =
    if limit <=? len kept then (false, <[user_id := kept]> user_requests)
    else (true, <[user_id := kept ++ [now]]> user_requests).
Proof.
  unfold rate_limit_check, item, window, limit.
  destruct (user_requests !! user_id) as [reqs|] eqn:Hlook; cbn.
  - rewrite lookup_insert_eq. cbn.
    destruct (_ <=? _); [done|]. by rewrite insert_insert_eq.
  - rewrite lookup_insert_eq. cbn.
    destruct (_ <=? _); [done|]. by rewrite insert_insert_eq.
Qed.

Lemma filter_replicate_now (now : instant) (k : nat) :
  0 < window → filter (λ t, now - window < t) (replicate k now) = replicate k now.
Proof.
  intros Hw. induction k as [|k IH]; [done|].
  rewrite replicate_S, filter_cons_True by lia. by rewrite IH.
Qed.

Lemma filter_stale (now : instant) (l : list instant) :
  (∀ t, t ∈ l → t ≤ now - window) → filter (λ t, now - window < t) l = [].
Proof.
  intros H. induction l as [|x l IH]; [done|].
  rewrite filter_cons_False.
  - apply IH. intros t Ht. apply H. by right.
  - assert (x ≤ now - window) by (apply H; by left). lia.
Qed.

(** Checks repeated at one instant are allowed as long as the count of
    the entries kept stays below the limit; the log then holds the kept
    entries followed by one [now] per allowed check. *)
Lemma check_all_allowed (now : instant) (n : nat) :
  0 < window →
  ∀ (user_requests : gmap Z (list instant)) (k : nat),
    filter (λ t, now - window < t) (item user_id user_requests) = replicate k now →
    Z.of_nat (k + n) ≤ limit →
    ∃ r, check_all user_id config user_requests (replicate n now) = (replicate n true, r)
         ∧ filter (λ t, now - window < t) (item user_id r) = replicate (k + n) now
         ∧ (0 < n → item user_id r = replicate (k + n) now)%nat.
Proof.
  intros Hw. induction n as [|n IH]; intros user_requests k Hk Hle.
  - exists user_requests. rewrite Nat.add_0_r. split_and!; [done|done|lia].
  - cbn [replicate check_all]. rewrite rate_limit_check_eq. cbn zeta. rewrite Hk.
    unfold len. rewrite length_replicate.
    destruct (Z.leb_spec limit (Z.of_nat k)) as [Hcmp|Hcmp]; [exfalso; lia|].
    assert (Hlog : item user_id (<[user_id := replicate k now ++ [now]]> user_requests)
                   = replicate (S k) now).
    { rewrite replicate_S_end. unfold item. by rewrite lookup_insert_eq. }
    destruct (IH (<[user_id := replicate k now ++ [now]]> user_requests) (S k))
      as (r & Hr & Hf & Hitem).
    + rewrite Hlog. by apply filter_replicate_now.
    + lia.
    + exists r. rewrite Hr. replace (k + S n)%nat with (S k + n)%nat by lia.
      split_and!; [done|done|].
      intros _. destruct n as [|n].
      * cbn in Hr. injection Hr as <-. rewrite Hlog. f_equal. lia.
      * apply Hitem. lia.
Qed.

(** A check while the kept entries already fill the limit is refused and
    records nothing. *)
Lemma check_refused (now : instant) (user_requests : gmap Z (list instant)) :
  let kept := filter (λ t, now - window < t) (item user_id user_requests) in
  limit ≤ len kept →
  rate_limit_check user_id user_requests config now = (false, <[user_id := kept]> user_requests).
Proof.
  intros kept Hfull. rewrite rate_limit_check_eq. fold kept.
  destruct (Z.leb_spec limit (len kept)) as [Hcmp|Hcmp]; [done|lia].
Qed.

Lemma check_all_app (user_requests : gmap Z (list instant)) (ts1 ts2 : list instant) :
  check_all user_id config user_requests (ts1 ++ ts2) =
    let '(oks1, r1) := check_all user_id config user_requests ts1 in
    let '(oks2, r2) := check_all user_id config r1 ts2 in
    (oks1 ++ oks2, r2).
Proof.
  revert user_requests. induction ts1 as [|t ts1 IH]; intros user_requests; cbn.
  - by destruct (check_all user_id config user_requests ts2).
  - destruct (rate_limit_check user_id user_requests config t) as [ok r].
    rewrite IH. destruct (check_all user_id config r ts1) as [oks1 r1].
    by destruct (check_all user_id config r1 ts2).
Qed.

End RateLimiter.

(** C5, as the code has it. [rate_limit_check] keeps the instants
    strictly later than [now - window]: every instant older than that
    is discarded, and so is one that is exactly a window old. It answers
    [false] without recording [now] when the kept instants number at
    least the limit, and otherwise records [now] and answers [true].
    With the configured window of 60 s and limit of 10, and a log
    holding no instant of the last 60 s: ten checks at one instant are
    all allowed, an eleventh at that instant is refused and leaves the
    ten recorded instants, and a check [d >= 60] seconds (60 already,
    and 61 in particular) after ten allowed ones is allowed. *)
Theorem rate_limit_check_sliding_window
    (admin uid : Z) (user_requests : gmap Z (list instant)) (now d : Z)
    (Hfresh : ∀ t, t ∈ item uid user_requests → t ≤ now - timedelta_seconds 60)
    (Hlater : 60 ≤ d) :
  let config := Config_init admin in
  (∀ (cfg : Config) (reqs : gmap Z (list instant)) (t : instant),
     let kept := filter (λ r, t - timedelta_seconds (rate_limit_window cfg) < r) (item uid reqs) in
     rate_limit_check uid reqs cfg t =
       if bool_decide (rate_limit_messages cfg ≤ len kept)
       then (false, <[uid := kept]> reqs)
       else (true, <[uid := kept ++ [t]]> reqs))
  ∧ (∃ r, check_all uid config user_requests (replicate 10 now ++ [now])
          = (replicate 10 true ++ [false], r)
          ∧ item uid r = replicate 10 now)
  ∧ (∃ r, check_all uid config user_requests (replicate 10 now ++ [now + timedelta_seconds d])
          = (replicate 11 true, r)
          ∧ item uid r = [now + timedelta_seconds d]).
Proof.
  intros config.
  assert (Hw : 0 < timedelta_seconds (rate_limit_window config)) by done.
  destruct (check_all_allowed config uid now 10 Hw user_requests 0) as (r & Hr & _ & Hlog).
  { by apply filter_stale. }
  { cbn. lia. }
  specialize (Hlog ltac:(lia)). cbn [Nat.add] in Hlog.
  split_and!.
  - intros cfg reqs t kept. rewrite rate_limit_check_eq. fold kept.
    case_bool_decide; destruct (Z.leb_spec (rate_limit_messages cfg) (len kept)); done || lia.
  - rewrite check_all_app, Hr. cbn [check_all].
    rewrite check_refused.
    + rewrite Hlog, filter_replicate_now by done.
      eexists. split; [done|]. unfold item. by rewrite lookup_insert_eq.
    + rewrite Hlog, filter_replicate_now by done. unfold len. cbn. lia.
  - rewrite check_all_app, Hr. cbn [check_all].
    rewrite rate_limit_check_eq. cbn zeta. rewrite Hlog.
    rewrite filter_stale.
    + cbn. eexists. split; [done|]. unfold item. by rewrite lookup_insert_eq.
    + intros t [-> _]%elem_of_replicate. unfold timedelta_seconds. cbn. lia.
Qed.

Lemma rate_limit_check_sliding_window_witness :
  (∀ t, t ∈ item 7 ({[7 := [-70000000]]} : gmap Z (list Z)) → t ≤ 0 - timedelta_seconds 60)
  ∧ 60 ≤ 61
  ∧ ∃ r, check_all 7 (Config_init 1) {[7 := [-70000000]]} (replicate 10 0 ++ [0 + timedelta_seconds 61])
         = (replicate 11 true, r) ∧ item 7 r = [0 + timedelta_seconds 61].
Proof.
  assert (H : ∀ t, t ∈ item 7 ({[7 := [-70000000]]} : gmap Z (list Z)) → t ≤ 0 - timedelta_seconds 60).
  { intros t Ht. vm_compute in Ht. apply list_elem_of_singleton in Ht. subst t. vm_compute. discriminate. }
  split; [exact H|]. split; [lia|].
  exact (proj2 (proj2 (rate_limit_check_sliding_window 1 7 {[7 := [-70000000]]} 0 61 H ltac:(lia)))).
Defined.

(** C5 as stated fails at the edge of the window. With ten instants on
    record, the oldest exactly 60 s before the check: discarding the
    instants older than [now - window] keeps all ten and refuses the
    check, while the code, which keeps the instants later than
    [now - window] only, drops the oldest, allows the check and records
    it. *)
Lemma rate_limit_check_boundary_instant :
  let log : gmap Z (list Z) := {[ 7 := 0 :: replicate 9 1000000 ]} in
  let now := timedelta_seconds 60 in
  AsSpecified.allow 7 log (Config_init 1) now = (false, log)
  ∧ rate_limit_check 7 log (Config_init 1) now
    = (true, {[ 7 := replicate 9 1000000 ++ [now] ]})
  ∧ rate_limit_check 7 log (Config_init 1) now ≠ AsSpecified.allow 7 log (Config_init 1) now.
Proof.
  intros log now.
  assert (Hspec : AsSpecified.allow 7 log (Config_init 1) now = (false, log)).
  { unfold AsSpecified.allow, item, log. rewrite lookup_singleton_eq.
    cbn. by rewrite insert_singleton_eq. }
  assert (Hcode : rate_limit_check 7 log (Config_init 1) now
                  = (true, {[ 7 := replicate 9 1000000 ++ [now] ]})).
  { rewrite rate_limit_check_eq. unfold item, log. rewrite lookup_singleton_eq.
    cbn. by rewrite insert_singleton_eq. }
  split_and!; [done|done|]. rewrite Hspec, Hcode. intros [=].
Qed.

(** ** Converting an int to a float *)

(** [float(z)] succeeds below 2^1023 in absolute value: the rounded
    exponent stays within the binary64 range. *)

Section FloatOfInt.

(** The constant standing for the literal [0.7] is the correctly
    rounded quotient of 7 by 10. *)
Lemma f0_7_nearest :
  SFdiv prec emax (binary_normalize prec emax 7 0 false)
                  (binary_normalize prec emax 10 0 false) = f0_7.
Proof. vm_compute. reflexivity. Qed.

Lemma digits2_pos_size (p : positive) : digits2_pos p = Pos.size p.
Proof. induction p; cbn; congruence. Qed.

Lemma digits2_pos_le (p : positive) (k : Z) :
  0 ≤ k → Z.pos p < 2 ^ k → Z.pos (digits2_pos p) ≤ k.
Proof.
  intros Hk Hp. rewrite digits2_pos_size.
  pose proof (Pos.size_le p) as Hs.
  apply Pos2Z.pos_le_pos in Hs. rewrite Pos2Z.inj_pow in Hs.
  destruct (Z.le_gt_cases (Z.pos (Pos.size p)) k) as [|Hgt]; [done|].
  exfalso.
  assert (2 ^ (Z.succ k) ≤ 2 ^ Z.pos (Pos.size p)) by (apply Z.pow_le_mono_r; lia).
  rewrite Z.pow_succ_r in * by done. lia.
Qed.

Lemma digits2_pos_succ (p : positive) :
  Z.pos (digits2_pos (Pos.succ p)) ≤ Z.pos (digits2_pos p) + 1.
Proof. induction p; simpl; lia. Qed.

Lemma digits2_pos_iter_xO (m d : positive) :
  digits2_pos (Pos.iter xO m d) = (digits2_pos m + d)%positive.
Proof.
  induction d as [|d IH] using Pos.peano_ind.
  - simpl. lia.
  - rewrite Pos.iter_succ. simpl. rewrite IH. lia.
Qed.

Lemma Zdigits2_nonneg (m : Z) : 0 ≤ Zdigits2 m.
Proof. destruct m; simpl; lia. Qed.

Lemma Zdigits2_succ (m : Z) : 0 ≤ m → Zdigits2 (m + 1) ≤ Zdigits2 m + 1.
Proof.
  destruct m as [|p|p]; intros Hm; [simpl; lia| |lia].
  simpl. rewrite Pos.add_1_r. pose proof (digits2_pos_succ p). lia.
Qed.

Lemma shr_1_m (mrs : shr_record) :
  0 ≤ shr_m mrs →
  0 ≤ shr_m (shr_1 mrs)
  ∧ Zdigits2 (shr_m (shr_1 mrs)) = Z.max 0 (Zdigits2 (shr_m mrs) - 1).
Proof.
  destruct mrs as [m r s]. simpl.
  destruct m as [|[p|p|]|p]; simpl; intros Hm; split; lia.
Qed.

Lemma iter_pos_nat {A} (f : A → A) (p : positive) (x : A) :
  SpecFloat.iter_pos f p x = Nat.iter (Pos.to_nat p) f x.
Proof.
  revert x. induction p as [p IH|p IH|]; intros x; cbn [SpecFloat.iter_pos].
  - rewrite !IH.
    replace (Pos.to_nat p~1) with (Pos.to_nat p + S (Pos.to_nat p))%nat by lia.
    by rewrite Nat.iter_add, Nat.iter_succ_r.
  - rewrite !IH.
    replace (Pos.to_nat p~0) with (Pos.to_nat p + Pos.to_nat p)%nat by lia.
    by rewrite Nat.iter_add.
  - done.
Qed.

Lemma iter_shr_1_m (n : nat) (mrs : shr_record) :
  0 ≤ shr_m mrs →
  0 ≤ shr_m (Nat.iter n shr_1 mrs)
  ∧ Zdigits2 (shr_m (Nat.iter n shr_1 mrs)) = Z.max 0 (Zdigits2 (shr_m mrs) - Z.of_nat n).
Proof.
  intros Hm. induction n as [|n [IH0 IH]].
  - cbn. pose proof (Zdigits2_nonneg (shr_m mrs)). lia.
  - rewrite Nat.iter_succ. destruct (shr_1_m _ IH0) as [H0 H1]. split; [done|].
    rewrite H1, IH. lia.
Qed.

(** A right shift by [n] places: what becomes of the exponent and of the
    width of the mantissa. *)
Lemma shr_m_bound (mrs : shr_record) (e n : Z) :
  0 ≤ shr_m mrs →
  0 ≤ shr_m (shr mrs e n).1
  ∧ (shr mrs e n).2 = e + Z.max 0 n
  ∧ Zdigits2 (shr_m (shr mrs e n).1) = Z.max 0 (Zdigits2 (shr_m mrs) - Z.max 0 n).
Proof.
  intros Hm. pose proof (Zdigits2_nonneg (shr_m mrs)).
  destruct n as [|p|p]; cbn [shr fst snd]; [split_and!; lia| |split_and!; lia].
  rewrite iter_pos_nat. destruct (iter_shr_1_m (Pos.to_nat p) mrs Hm) as [H0 H1].
  split_and!; [done|lia|]. rewrite H1. lia.
Qed.

Lemma shr_record_of_loc_m (m : Z) (l : location) : shr_m (shr_record_of_loc m l) = m.
Proof. by destruct l as [|[]]. Qed.

Lemma round_nearest_even_bound (m : Z) (l : location) :
  0 ≤ m →
  0 ≤ round_nearest_even m l
  ∧ Zdigits2 (round_nearest_even m l) ≤ Zdigits2 m + 1.
Proof.
  intros Hm. pose proof (Zdigits2_succ m Hm).
  destruct l as [|[]]; cbn; try destruct (Z.even m); split; lia.
Qed.

Lemma binary_round_aux_not_infinity (sx : bool) (m e : Z) (l : location) (s : bool) :
  0 ≤ m → Zdigits2 m + e ≤ 1023 → e ≤ 971 →
  binary_round_aux prec emax sx m e l ≠ S754_infinity s.
Proof.
  intros Hm Hd He. unfold binary_round_aux, shr_fexp.
  set (n1 := fexp prec emax (Zdigits2 m + e) - e).
  pose proof (shr_m_bound (shr_record_of_loc m l) e n1) as H1.
  rewrite shr_record_of_loc_m in H1. specialize (H1 Hm).
  destruct (shr (shr_record_of_loc m l) e n1) as [mrs' e'].
  cbn [fst snd] in H1. destruct H1 as (Hm' & He' & Hd').
  destruct (round_nearest_even_bound (shr_m mrs') (loc_of_shr_record mrs') Hm')
    as [Hm2 Hd2].
  set (m2 := round_nearest_even (shr_m mrs') (loc_of_shr_record mrs')) in *.
  set (n2 := fexp prec emax (Zdigits2 m2 + e') - e').
  pose proof (shr_m_bound (shr_record_of_loc m2 loc_Exact) e' n2) as H2.
  rewrite shr_record_of_loc_m in H2. specialize (H2 Hm2).
  destruct (shr (shr_record_of_loc m2 loc_Exact) e' n2) as [mrs'' e''].
  cbn [fst snd] in H2. destruct H2 as (Hm'' & He'' & Hd'').
  assert (e'' ≤ 971).
  { subst n1 n2. unfold fexp, emin, prec, emax in *. lia. }
  destruct (shr_m mrs''); [done| |done].
  destruct (Z.leb_spec e'' (emax - prec)) as [|Hgt]; [done|].
  unfold emax, prec in Hgt. lia.
Qed.

Lemma binary_round_not_infinity (sx : bool) (mx : positive) (s : bool) :
  Z.pos mx < 2 ^ 1023 →
  binary_round prec emax sx mx 0 ≠ S754_infinity s.
Proof.
  intros Hmx. pose proof (digits2_pos_le mx 1023 ltac:(lia) Hmx) as Hd.
  unfold binary_round, shl_align.
  set (fe := fexp prec emax (Z.pos (digits2_pos mx) + 0)).
  assert (Hfe : fe = Z.max (Z.pos (digits2_pos mx) - 53) (-1074)).
  { subst fe. unfold fexp, emin, prec, emax. lia. }
  destruct (fe - 0) as [|d|d] eqn:Hdiff.
  - apply binary_round_aux_not_infinity; cbn; lia.
  - apply binary_round_aux_not_infinity; cbn; lia.
  - apply binary_round_aux_not_infinity; [lia| |lia].
    cbn [Zdigits2]. rewrite digits2_pos_iter_xO. lia.
Qed.

Lemma float_of_int_total (z : Z) :
  Z.abs z < 2 ^ 1023 → ∃ fl, float_of_int z = Ok fl.
Proof.
  intros Hz. unfold float_of_int, binary_normalize.
  destruct z as [|p|p].
  - eauto.
  - pose proof (binary_round_not_infinity false p) as Hni.
    destruct (binary_round prec emax false p 0) as [| s | |]; eauto.
    destruct (Hni s); [lia|done].
  - pose proof (binary_round_not_infinity true p) as Hni.
    destruct (binary_round prec emax true p 0) as [| s | |]; eauto.
    destruct (Hni s); [lia|done].
Qed.

End FloatOfInt.

(** ** The message formatter *)

Section Slices.

Context {A : Type}.
Implicit Types l : list A.

Lemma slice_to_take l (k : Z) : ∃ n : nat, slice_to l k = take n l.
Proof. unfold slice_to. destruct (k <? 0); eauto. Qed.

Lemma slice_to_nonneg l (k : Z) : 0 ≤ k → slice_to l k = take (Z.to_nat k) l.
Proof. intros Hk. unfold slice_to. destruct (Z.ltb_spec k 0); [lia|done]. Qed.

Lemma len_slice_to_le l (k : Z) : 0 ≤ k → k ≤ len l → len (slice_to l k) = k.
Proof.
  intros H0 Hk. rewrite slice_to_nonneg by done. unfold len in *.
  rewrite length_take. lia.
Qed.

Lemma len_app l1 l2 : len (l1 ++ l2) = len l1 + len l2.
Proof. unfold len. rewrite length_app. lia. Qed.

End Slices.

(** *** [rfind] finds the last occurrence *)

Lemma rfind_lower (s : list N) (c : N) : -1 ≤ rfind s c.
Proof.
  induction s as [|x s IH]; cbn; [lia|].
  destruct (Z.leb_spec 0 (rfind s c)); [lia|]. destruct (N.eqb x c); lia.
Qed.

Lemma rfind_none (s : list N) (c : N) :
  rfind s c = -1 → ∀ (i : nat), s !! i ≠ Some c.
Proof.
  induction s as [|x s IH]; cbn; intros Hr i; [by destruct i|].
  destruct (Z.leb_spec 0 (rfind s c)) as [Hle|Hlt]; [lia|].
  destruct (N.eqb_spec x c) as [->|Hne]; [lia|].
  destruct i as [|i]; cbn; [congruence|].
  apply IH. pose proof (rfind_lower s c). lia.
Qed.

Lemma rfind_some (s : list N) (c : N) :
  0 ≤ rfind s c →
  ∃ i : nat, rfind s c = Z.of_nat i ∧ s !! i = Some c
             ∧ ∀ j : nat, (i < j)%nat → s !! j ≠ Some c.
Proof.
  induction s as [|x s IH]; cbn; [lia|].
  destruct (Z.leb_spec 0 (rfind s c)) as [Hle|Hlt].
  - intros _. destruct (IH Hle) as (i & Hi & Hlook & Hlast).
    exists (S i). split_and!; [lia|done|].
    intros [|j] Hj; [lia|]. cbn. apply Hlast. lia.
  - destruct (N.eqb_spec x c) as [->|Hne]; [|lia].
    intros _. exists 0%nat. split_and!; [done|done|].
    intros [|j] Hj; [lia|]. cbn. apply rfind_none.
    pose proof (rfind_lower s c). lia.
Qed.

(** The code's maximum of two [rfind]s is the last boundary of the
    window it searched. *)
Lemma cut_point_last_boundary (escaped : list N) (max_length : Z) :
  is_last_boundary (slice_to escaped (max_length - 100)) (cut_point escaped max_length).
Proof.
  unfold cut_point. cbn zeta.
  set (s := slice_to escaped (max_length - 100)).
  pose proof (rfind_lower s DOT) as Hd. pose proof (rfind_lower s LF) as Hn.
  destruct (decide (rfind s DOT = -1)) as [Hd1|Hd1];
    destruct (decide (rfind s LF = -1)) as [Hn1|Hn1].
  - left. split; [lia|].
    intros i ch Hi [-> | ->];
      [exact (rfind_none s DOT Hd1 i Hi) | exact (rfind_none s LF Hn1 i Hi)].
  - right. destruct (rfind_some s LF) as (i & Hi & Hlook & Hlast); [lia|].
    exists i, LF. split_and!; [lia|done|by right|].
    intros j ch' Hj Hlk [-> | ->];
      [exact (rfind_none s DOT Hd1 j Hlk) | exact (Hlast j Hj Hlk)].
  - right. destruct (rfind_some s DOT) as (i & Hi & Hlook & Hlast); [lia|].
    exists i, DOT. split_and!; [lia|done|by left|].
    intros j ch' Hj Hlk [-> | ->];
      [exact (Hlast j Hj Hlk) | exact (rfind_none s LF Hn1 j Hlk)].
  - destruct (rfind_some s DOT) as (i & Hi & Hlook & Hlast); [lia|].
    destruct (rfind_some s LF) as (i' & Hi' & Hlook' & Hlast'); [lia|].
    right. destruct (decide (i' < i)%nat) as [Hlt|Hge].
    + exists i, DOT. split_and!; [lia|done|by left|].
      intros j ch' Hj Hlk [-> | ->];
        [exact (Hlast j Hj Hlk) | exact (Hlast' j ltac:(lia) Hlk)].
    + exists i', LF. assert (i ≠ i') by (intros ->; rewrite Hlook in Hlook'; done).
      split_and!; [lia|done|by right|].
      intros j ch' Hj Hlk [-> | ->];
        [exact (Hlast j ltac:(lia) Hlk) | exact (Hlast' j Hj Hlk)].
Qed.

Lemma is_last_boundary_unique (s : list N) (c c' : Z) :
  is_last_boundary s c → is_last_boundary s c' → c = c'.
Proof.
  intros [[-> Hno] | (i & ch & -> & Hi & Hb & Hlast)]
         [[-> Hno'] | (i' & ch' & -> & Hi' & Hb' & Hlast')].
  - done.
  - by destruct (Hno _ _ Hi').
  - by destruct (Hno' _ _ Hi).
  - destruct (decide (i < i')%nat); [by destruct (Hlast _ _ ltac:(done) Hi')|].
    destruct (decide (i' < i)%nat); [by destruct (Hlast' _ _ ltac:(done) Hi)|].
    f_equal. lia.
Qed.

(** *** Escaping *)

Lemma well_escaped_escape (text : list N) : well_escaped (re_sub_escape text) = true.
Proof.
  induction text as [|c t IH]; [done|].
  cbn [re_sub_escape]. destruct (is_reserved c) eqn:Hc.
  - cbn. by rewrite Hc, IH.
  - cbn [well_escaped]. destruct (N.eqb_spec c BACKSLASH) as [->|Hne]; [done|].
    by rewrite Hc, IH.
Qed.

(** Cutting the escaped text right after a character that is not a
    backslash never separates a backslash from the character it
    escapes: what is kept is the escaping of a prefix of the input. *)
Lemma escape_take_after (text : list N) :
  ∀ (i : nat) ch, re_sub_escape text !! i = Some ch → ch ≠ BACKSLASH →
    ∃ k : nat, take (S i) (re_sub_escape text) = re_sub_escape (take k text).
Proof.
  induction text as [|c t IH]; intros i ch Hi Hch; [by destruct i|].
  cbn [re_sub_escape] in *. destruct (is_reserved c) eqn:Hc.
  - destruct i as [|[|i]]; cbn in Hi.
    + congruence.
    + exists 1%nat. cbn. by rewrite Hc, take_0.
    + destruct (IH i ch Hi Hch) as [k Hk]. exists (S k).
      cbn [take re_sub_escape]. rewrite Hc. cbn [take] in Hk. by rewrite Hk.
  - destruct i as [|i]; cbn in Hi.
    + exists 1%nat. cbn. by rewrite Hc, take_0.
    + destruct (IH i ch Hi Hch) as [k Hk]. exists (S k).
      cbn [take re_sub_escape]. rewrite Hc. cbn [take] in Hk. by rewrite Hk.
Qed.

Lemma re_sub_escape_nonempty (text : list N) : text ≠ [] → re_sub_escape text ≠ [].
Proof. destruct text as [|c t]; [done|]. intros _. cbn. by destruct (is_reserved c). Qed.

(** *** The threshold test *)

(** The product [max_length * 0.7] is not negative for a length that is
    not negative, so the "not found" value -1 never passes the test. *)
Lemma binary_round_aux_sign (sx : bool) (mx ex : Z) (lx : location) :
  match binary_round_aux prec emax sx mx ex lx with
  | S754_zero s | S754_infinity s | S754_finite s _ _ => s = sx
  | S754_nan => True
  end.
Proof.
  unfold binary_round_aux.
  destruct (shr_fexp prec emax mx ex lx) as [mrs' e'].
  destruct (shr_fexp prec emax _ e' loc_Exact) as [mrs'' e''].
  destruct (shr_m mrs''); [done| |done].
  by destruct (_ <=? _).
Qed.

Lemma not_found_not_past_threshold (max_length : Z) (fl : spec_float) :
  0 ≤ max_length → float_of_int max_length = Ok fl →
  int_gt_float (-1) (fmul fl f0_7) = false.
Proof.
  intros Hpos. unfold float_of_int, binary_normalize.
  destruct max_length as [|m|m]; [|clear Hpos|lia].
  - intros [= <-]. reflexivity.
  - unfold binary_round. destruct (shl_align _ _ _) as [mz ez].
    pose proof (binary_round_aux_sign false (Z.pos mz) ez loc_Exact) as Hs.
    destruct (binary_round_aux prec emax false (Z.pos mz) ez loc_Exact)
      as [s|s| |s m' e'] eqn:Hx; intros [= <-]; try done.
    subst s. clear Hx. unfold fmul, f0_7, SFmul. cbn [xorb].
    pose proof (binary_round_aux_sign false
                  (Z.pos (m' * 6305039478318694)) (e' + -53) loc_Exact) as Hs.
    destruct (binary_round_aux prec emax _ _ _ loc_Exact) as [s|s| |s m2 e2]; cbn in *.
    + done.
    + by subst s.
    + done.
    + subst s. destruct (0 <=? e2); apply Z.ltb_ge; lia.
Qed.

(** *** [format_message] case by case *)

Lemma format_message_eq (text : list N) (max_length : Z) :
  text ≠ [] →
  format_message text max_length =
    let escaped := re_sub_escape text in
    if max_length <? len escaped then
      match past_threshold (cut_point escaped max_length) max_length with
      | Raise e => Raise e
      | Ok true => Ok (slice_to escaped (cut_point escaped max_length + 1) ++ marker)
      | Ok false => Ok (slice_to escaped (max_length - 15) ++ marker)
      end
    else Ok escaped.
Proof.
  destruct text as [|c t]; [done|]. intros _.
  unfold format_message, past_threshold, cut_point. cbn zeta.
  destruct (_ <? _); [|done].
  destruct (float_of_int max_length); [|done].
  by destruct (int_gt_float _ _).
Qed.

Lemma format_message_total (text : list N) (max_length : Z) :
  Z.abs max_length < 2 ^ 1023 → ∃ out, format_message text max_length = Ok out.
Proof.
  intros Hrange. destruct text as [|c t]; [by eexists|].
  rewrite format_message_eq by done. cbn zeta.
  destruct (_ <? _); [|by eexists].
  unfold past_threshold. destruct (float_of_int_total max_length Hrange) as [fl ->].
  destruct (int_gt_float _ _); by eexists.
Qed.

Lemma len_marker : len marker = 17.
Proof. reflexivity. Qed.

(** The last boundary of the searched window lies inside the window. *)
Lemma cut_point_range (escaped : list N) (max_length : Z) :
  100 ≤ max_length →
  -1 ≤ cut_point escaped max_length < max_length - 100
  ∧ cut_point escaped max_length < len escaped.
Proof.
  intros HL.
  destruct (cut_point_last_boundary escaped max_length)
    as [[-> _] | (i & ch & -> & Hi & _)].
  - unfold len. lia.
  - rewrite slice_to_nonneg in Hi by lia.
    apply lookup_take_Some in Hi as [Hi Hlt].
    apply lookup_lt_Some in Hi. unfold len. lia.
Qed.

(** The hard cut keeps [max_length - 15] characters and appends the 17
    characters of the marker. *)
Lemma format_message_hard_cut_length (text : list N) (max_length : Z) :
  text ≠ [] → 15 ≤ max_length →
  max_length < len (re_sub_escape text) →
  past_threshold (cut_point (re_sub_escape text) max_length) max_length = Ok false →
  ∃ out, format_message text max_length = Ok out ∧ len out = max_length + 2.
Proof.
  intros Hne HL Hlong Hthr. rewrite format_message_eq by done. cbn zeta.
  destruct (Z.ltb_spec max_length (len (re_sub_escape text))); [|lia].
  rewrite Hthr. eexists. split; [done|].
  rewrite len_app, len_slice_to_le, len_marker by lia. lia.
Qed.

(** With a limit of at least 100 the output exceeds the limit by at
    most two characters. *)
Lemma format_message_length_bound (text : list N) (max_length : Z) (out : list N) :
  100 ≤ max_length → format_message text max_length = Ok out →
  len out ≤ max_length + 2.
Proof.
  intros HL. destruct text as [|c t]; [intros [= <-]; unfold len; cbn; lia|].
  rewrite format_message_eq by done. cbn zeta.
  set (escaped := re_sub_escape (c :: t)).
  destruct (Z.ltb_spec max_length (len escaped)) as [Hlong|Hfit]; [|intros [= <-]; lia].
  destruct (cut_point_range escaped max_length HL) as [Hc Hc'].
  destruct (past_threshold _ _) as [[|]|]; intros [= <-]; rewrite len_app.
  - rewrite len_slice_to_le, len_marker by lia. lia.
  - rewrite len_slice_to_le, len_marker by lia. lia.
Qed.

(** The other branches keep within the limit. *)
Lemma format_message_length_without_hard_cut
    (text : list N) (max_length : Z) (out : list N) :
  100 ≤ max_length → format_message text max_length = Ok out →
  (max_length < len (re_sub_escape text) →
   past_threshold (cut_point (re_sub_escape text) max_length) max_length = Ok true) →
  len out ≤ max_length.
Proof.
  intros HL. destruct text as [|c t]; [intros [= <-]; unfold len; cbn; lia|].
  rewrite format_message_eq by done. cbn zeta.
  set (escaped := re_sub_escape (c :: t)).
  destruct (Z.ltb_spec max_length (len escaped)) as [Hlong|Hfit]; [|intros [= <-]; lia].
  destruct (cut_point_range escaped max_length HL) as [Hc Hc'].
  intros Hout Hsoft. rewrite (Hsoft Hlong) in Hout. injection Hout as <-.
  rewrite len_app, len_slice_to_le, len_marker by lia. lia.
Qed.

(** C1. The bound [len(format_message(text, L)) <= L] is broken by the
    hard cut: a reply of 4097 letters formatted with the configured
    limit of 4096 comes out 4098 characters long (4081 kept, then the
    17 characters of the marker). *)
Theorem format_message_exceeds_max_length :
  ∃ out, format_message (replicate 4097 97%N) (max_message_length (Config_init 0)) = Ok out
         ∧ len out = 4098
         ∧ max_message_length (Config_init 0) < len out.
Proof.
  eexists. split; [vm_compute; reflexivity|]. split; vm_compute; reflexivity.
Qed.

(** When the hard cut is not taken: a text whose escaped form fits is
    returned escaped, and a longer one is the escaping of a prefix of
    the input followed by the marker. *)
Lemma format_message_keeps_pairs (text : list N) (max_length : Z) (out : list N) :
  text ≠ [] →
  format_message text max_length = Ok out →
  (max_length < len (re_sub_escape text) →
   past_threshold (cut_point (re_sub_escape text) max_length) max_length = Ok true) →
  (len (re_sub_escape text) ≤ max_length ∧ out = re_sub_escape text)
  ∨ (max_length < len (re_sub_escape text)
     ∧ ∃ k : nat, (k ≤ length text)%nat ∧ out = re_sub_escape (take k text) ++ marker).
Proof.
  intros Hne. rewrite format_message_eq by done. cbn zeta.
  set (escaped := re_sub_escape text).
  destruct (Z.ltb_spec max_length (len escaped)) as [Hlong|Hfit].
  - intros Hout Hthr. rewrite (Hthr Hlong) in Hout. injection Hout as <-.
    right. split; [done|].
    assert (Hk : ∃ k : nat,
               slice_to escaped (cut_point escaped max_length + 1)
               = re_sub_escape (take k text)).
    { destruct (cut_point_last_boundary escaped max_length)
        as [[-> _] | (i & ch & -> & Hi & Hb & _)].
      - exists 0%nat. by rewrite take_0.
      - destruct (slice_to_take escaped (max_length - 100)) as [n Hn].
        rewrite Hn in Hi. apply lookup_take_Some in Hi as [Hi _].
        destruct (escape_take_after text i ch Hi) as [k Hk].
        { by destruct Hb as [-> | ->]. }
        exists k. rewrite slice_to_nonneg by lia.
        replace (Z.to_nat (Z.of_nat i + 1)) with (S i) by lia.
        fold escaped in Hk. by rewrite Hk. }
    destruct Hk as [k Hk].
    exists (k `min` length text)%nat. split; [lia|].
    rewrite Hk. f_equal. f_equal.
    destruct (Nat.le_gt_cases k (length text)).
    + by rewrite Nat.min_l.
    + rewrite Nat.min_r by lia. by rewrite !take_ge by lia.
  - intros [= <-] _. by left.
Qed.

(** C4, as the code has it. A non-empty text whose escaped form fits is
    returned escaped, whole and with nothing after it. One that is cut
    at a sentence boundary comes out as the escaping of a prefix of the
    input (each reserved character right after its backslash, no pair
    cut in two) followed by the truncation marker, which is appended as
    it is. *)
Theorem format_message_escaped_prefix (text : list N) (max_length : Z) (out : list N)
    (Hne : text ≠ [])
    (Hout : format_message text max_length = Ok out)
    (Hsoft : max_length < len (re_sub_escape text) →
             past_threshold (cut_point (re_sub_escape text) max_length) max_length = Ok true) :
  ∃ (k : nat) (tail : list N),
    out = re_sub_escape (take k text) ++ tail
    ∧ well_escaped (re_sub_escape (take k text)) = true
    ∧ (k ≤ length text)%nat
    ∧ tail = (if bool_decide (len (re_sub_escape text) ≤ max_length) then [] else marker)
    ∧ (len (re_sub_escape text) ≤ max_length → k = length text ∧ out = re_sub_escape text).
Proof.
  destruct (format_message_keeps_pairs text max_length out Hne Hout Hsoft)
    as [[Hfit ->] | (Hlong & k & Hk & ->)].
  - exists (length text), [].
    rewrite firstn_all, app_nil_r, well_escaped_escape.
    rewrite bool_decide_eq_true_2 by done. done.
  - exists k, marker. rewrite well_escaped_escape.
    rewrite bool_decide_eq_false_2 by lia.
    split_and!; [done|done|done|done|lia].
Qed.

Lemma format_message_escaped_prefix_witness :
  let text := replicate 290 97%N ++ [DOT] ++ replicate 200 97%N in
  ∃ (k : nat) (tail : list N),
    slice_to (re_sub_escape text) 292 ++ marker = re_sub_escape (take k text) ++ tail
    ∧ well_escaped (re_sub_escape (take k text)) = true
    ∧ (k ≤ length text)%nat
    ∧ tail = (if bool_decide (len (re_sub_escape text) ≤ 400) then [] else marker)
    ∧ (len (re_sub_escape text) ≤ 400 → k = length text
       ∧ slice_to (re_sub_escape text) 292 ++ marker = re_sub_escape text).
Proof.
  intros text.
  apply (format_message_escaped_prefix text 400).
  - discriminate.
  - vm_compute. reflexivity.
  - intros _. vm_compute. reflexivity.
Defined.

(** C4 as stated fails in two ways. The fallback for an empty text ends
    in a period that nothing escapes, and an output cut at a sentence
    boundary ends in the marker, whose periods and parentheses are not
    escaped either. And the hard cut can fall between a backslash and
    the character it escapes: 2100 asterisks are escaped to 4200
    characters and cut after the 4081st, a backslash whose asterisk is
    lost, so that the output has a bare backslash before the marker. *)
Lemma format_message_output_not_escaped :
  (∃ out, format_message [] 4096 = Ok out ∧ well_escaped out = false)
  ∧ (∃ out, format_message (replicate 3000 97%N ++ [DOT] ++ replicate 1200 97%N) 4096 = Ok out
            ∧ well_escaped out = false)
  ∧ (let escaped := re_sub_escape (replicate 2100 42%N) in
     format_message (replicate 2100 42%N) 4096 = Ok (take 4081 escaped ++ marker)
     ∧ last (take 4081 escaped) = Some BACKSLASH
     ∧ escaped !! 4081%nat = Some 42%N
     ∧ well_escaped (take 4081 escaped) = false).
Proof.
  split_and!.
  - eexists. split; vm_compute; reflexivity.
  - eexists. split; vm_compute; reflexivity.
  - vm_compute. done.
Qed.

(** The hard cut, for its part, can fall between a backslash and the
    character it escapes: 2100 asterisks are escaped to 4200 characters
    and cut after the 4081st, a backslash. *)
Lemma format_message_hard_cut_splits_pair :
  ∃ out, format_message (replicate 2100 42%N) 4096 = Ok out
         ∧ out = take 4080 (re_sub_escape (replicate 2100 42%N)) ++ [BACKSLASH] ++ marker.
Proof. eexists. split; vm_compute; reflexivity. Qed.

(** *** The threshold against seven tenths of the limit *)

Lemma int_gt_float_mono (c c' : Z) (x : spec_float) :
  c ≤ c' → int_gt_float c x = true → int_gt_float c' x = true.
Proof.
  intros Hle. destruct x as [s|s| |s m e]; cbn; try done.
  - rewrite !Z.ltb_lt. lia.
  - destruct (0 <=? e); rewrite !Z.ltb_lt; [lia|].
    assert (0 ≤ 2 ^ (- e)) by (apply Z.pow_nonneg; lia). nia.
Qed.

Lemma threshold_exact_spec (max_length c : Z) :
  threshold_exact max_length = true →
  past_threshold c max_length = Ok (bool_decide (7 * max_length < 10 * c)).
Proof.
  unfold threshold_exact, past_threshold.
  destruct (float_of_int max_length) as [fl|]; [|done].
  set (x := fmul fl f0_7).
  destruct (int_gt_float (7 * max_length / 10) x) eqn:Hlo; [done|].
  destruct (int_gt_float (7 * max_length / 10 + 1) x) eqn:Hhi; [|done].
  intros _. f_equal.
  pose proof (Z.div_mod (7 * max_length) 10 ltac:(done)) as Hdm.
  pose proof (Z.mod_pos_bound (7 * max_length) 10 ltac:(done)) as Hmod.
  case_bool_decide as Hc.
  - apply (int_gt_float_mono (7 * max_length / 10 + 1)); [lia|done].
  - destruct (int_gt_float c x) eqn:Hcx; [|done].
    rewrite (int_gt_float_mono c (7 * max_length / 10) x) in Hlo; [done|lia|done].
Qed.

(** Up to 5000 the test is exact at every limit that is not a multiple
    of ten; 4096 is one of them. *)
Lemma threshold_exact_upto (max_length : Z) :
  0 ≤ max_length ≤ 5000 → max_length `mod` 10 ≠ 0 →
  threshold_exact max_length = true.
Proof.
  intros Hrange Hmod.
  assert (Hall : forallb (λ L, (L `mod` 10 =? 0) || threshold_exact L) (seqZ 0 5001) = true)
    by (vm_compute; reflexivity).
  rewrite forallb_forall in Hall.
  specialize (Hall max_length). rewrite <- list_elem_of_In, elem_of_seqZ in Hall.
  specialize (Hall ltac:(lia)).
  apply orb_true_iff in Hall as [Hz|Hok]; [|done].
  apply Z.eqb_eq in Hz. done.
Qed.

Lemma past_threshold_4096 (c : Z) :
  past_threshold c 4096 = Ok (bool_decide (2868 ≤ c)).
Proof.
  rewrite threshold_exact_spec by (vm_compute; reflexivity).
  f_equal. apply bool_decide_ext. lia.
Qed.

(** At some multiples of ten the product is rounded below seven tenths,
    and a boundary at exactly 70% of the limit passes the test. *)
Lemma past_threshold_1290 : past_threshold 903 1290 = Ok true ∧ 10 * 903 = 7 * 1290.
Proof. split; vm_compute; reflexivity. Qed.

(** The truncation of [format_message] for a limit of at least 100. *)
Lemma format_message_cut_cases (text : list N) (max_length : Z)
    (Hne : text ≠ [])
    (Hmin : 100 ≤ max_length)
    (Hmax : max_length < 2 ^ 1023)
    (Hlong : max_length < len (re_sub_escape text)) :
  let escaped := re_sub_escape text in
  let window := take (Z.to_nat (max_length - 100)) escaped in
  ∃ (c : Z) (past : bool),
    is_last_boundary window c
    ∧ past_threshold c max_length = Ok past
    ∧ format_message text max_length =
        Ok (if past then take (Z.to_nat (c + 1)) escaped ++ marker
            else take (Z.to_nat (max_length - 15)) escaped ++ marker)
    ∧ ((∀ (i : nat) ch, window !! i = Some ch → is_boundary ch →
          past_threshold (Z.of_nat i) max_length = Ok false) → past = false)
    ∧ (∀ p : nat, window !! p = Some DOT →
          (∀ (j : nat) ch, (p < j)%nat → window !! j = Some ch → ¬ is_boundary ch) →
          past_threshold (Z.of_nat p) max_length = Ok true →
          c = Z.of_nat p ∧ past = true).
Proof.
  intros escaped window. fold escaped in Hlong.
  pose proof (cut_point_last_boundary escaped max_length) as Hlast.
  rewrite slice_to_nonneg in Hlast by lia. fold window in Hlast.
  destruct (cut_point_range escaped max_length Hmin) as [Hc _].
  destruct (float_of_int_total max_length) as [fl Hfl];
    [by rewrite Z.abs_eq by lia|].
  exists (cut_point escaped max_length),
         (int_gt_float (cut_point escaped max_length) (fmul fl f0_7)).
  assert (Hthr : ∀ c, past_threshold c max_length = Ok (int_gt_float c (fmul fl f0_7))).
  { intros c. unfold past_threshold. by rewrite Hfl. }
  split_and!.
  - done.
  - apply Hthr.
  - rewrite format_message_eq by done. cbn zeta. fold escaped.
    destruct (Z.ltb_spec max_length (len escaped)); [|lia].
    rewrite Hthr. rewrite !slice_to_nonneg by lia.
    by destruct (int_gt_float _ _).
  - intros Hnone.
    destruct Hlast as [[-> _] | (i & ch & -> & Hi & Hb & _)].
    + by apply (not_found_not_past_threshold max_length); [lia|].
    + specialize (Hnone i ch Hi Hb). rewrite Hthr in Hnone. congruence.
  - intros p Hp Hafter Hpast.
    assert (Hp_last : is_last_boundary window (Z.of_nat p)).
    { right. exists p, DOT. split_and!; [done|done|by left|done]. }
    rewrite (is_last_boundary_unique _ _ _ Hlast Hp_last).
    split; [done|]. rewrite Hthr in Hpast. congruence.
Qed.


(** With the configured limit of 4096 the test is "index at least 2868":
    a text with no period or line break at the indices 2868 to 3995 of
    its escaped form is hard-cut after 4081 characters, and a text whose
    last period or line break before index 3996 is a period at an index
    of 2868 or more is cut right after it. *)
Lemma format_message_4096_hard_cut (text : list N) :
  text ≠ [] → 4096 < len (re_sub_escape text) →
  (∀ (i : nat) ch, take 3996 (re_sub_escape text) !! i = Some ch → is_boundary ch →
     Z.of_nat i < 2868) →
  format_message text 4096 = Ok (take 4081 (re_sub_escape text) ++ marker).
Proof.
  intros Hne Hlong Hnone.
  destruct (format_message_cut_cases text 4096 Hne ltac:(lia) ltac:(done) Hlong)
    as (c & past & _ & _ & Hout & Hhard & _).
  rewrite Hout, Hhard; [done|].
  intros i ch Hi Hb. rewrite past_threshold_4096. f_equal.
  apply bool_decide_eq_false_2. specialize (Hnone i ch Hi Hb). lia.
Qed.

Lemma format_message_4096_cut_at_period (text : list N) (p : nat) :
  text ≠ [] → 4096 < len (re_sub_escape text) →
  take 3996 (re_sub_escape text) !! p = Some DOT →
  (∀ (j : nat) ch, (p < j)%nat → take 3996 (re_sub_escape text) !! j = Some ch →
     ¬ is_boundary ch) →
  2868 ≤ Z.of_nat p →
  format_message text 4096 = Ok (take (S p) (re_sub_escape text) ++ marker).
Proof.
  intros Hne Hlong Hp Hlast Hpast.
  destruct (format_message_cut_cases text 4096 Hne ltac:(lia) ltac:(done) Hlong)
    as (c & past & _ & _ & Hout & _ & Hcut).
  destruct (Hcut p Hp Hlast) as [-> ->].
  { rewrite past_threshold_4096. f_equal. by apply bool_decide_eq_true_2. }
  rewrite Hout. do 3 f_equal. lia.
Qed.

(** C6, as the code has it. For a limit of at least 100 and an escaped
    text longer than the limit, the cut point is the last period or line
    break among the first [max_length - 100] characters of the escaped
    text (-1 if there is none). If it passes the test
    [cut_point > max_length * 0.7], evaluated in double precision, the
    output is the escaped text up to and including that character, then
    the marker; otherwise it is the first [max_length - 15] characters,
    then the marker. So a text with no boundary of that window passing
    the test is hard-cut, and a text whose last boundary in the window
    is a period passing the test is cut right after that period. *)
Theorem format_message_cut_rule (text : list N) (max_length : Z)
    (Hne : text ≠ [])
    (Hmin : 100 ≤ max_length)
    (Hmax : max_length < 2 ^ 1023)
    (Hlong : max_length < len (re_sub_escape text)) :
  let escaped := re_sub_escape text in
  let window := take (Z.to_nat (max_length - 100)) escaped in
  ∃ (c : Z) (past : bool),
    is_last_boundary window c
    ∧ past_threshold c max_length = Ok past
    ∧ format_message text max_length =
        Ok (if past then take (Z.to_nat (c + 1)) escaped ++ marker
            else take (Z.to_nat (max_length - 15)) escaped ++ marker)
    ∧ ((∀ (i : nat) ch, window !! i = Some ch → is_boundary ch →
          past_threshold (Z.of_nat i) max_length = Ok false) → past = false)
    ∧ (∀ p : nat, window !! p = Some DOT →
          (∀ (j : nat) ch, (p < j)%nat → window !! j = Some ch → ¬ is_boundary ch) →
          past_threshold (Z.of_nat p) max_length = Ok true →
          c = Z.of_nat p ∧ past = true).
Proof. by apply format_message_cut_cases. Qed.

Lemma format_message_cut_rule_witness :
  let text := replicate 3000 97%N ++ [DOT] ++ replicate 1200 97%N in
  let escaped := re_sub_escape text in
  let window := take (Z.to_nat (4096 - 100)) escaped in
  ∃ (c : Z) (past : bool),
    is_last_boundary window c
    ∧ past_threshold c 4096 = Ok past
    ∧ format_message text 4096 =
        Ok (if past then take (Z.to_nat (c + 1)) escaped ++ marker
            else take (Z.to_nat (4096 - 15)) escaped ++ marker)
    ∧ ((∀ (i : nat) ch, window !! i = Some ch → is_boundary ch →
          past_threshold (Z.of_nat i) 4096 = Ok false) → past = false)
    ∧ (∀ p : nat, window !! p = Some DOT →
          (∀ (j : nat) ch, (p < j)%nat → window !! j = Some ch → ¬ is_boundary ch) →
          past_threshold (Z.of_nat p) 4096 = Ok true →
          c = Z.of_nat p ∧ past = true).
Proof.
  intros text.
  apply (format_message_cut_rule text 4096).
  - discriminate.
  - lia.
  - vm_compute. reflexivity.
  - vm_compute. reflexivity.
Defined.

(** C6 as stated fails in two places. With a limit of 200 a period at
    position 160, that is at 0.8 times the limit, lies outside the
    first 100 characters that are searched, and the text is hard-cut at
    185. With a limit of 1290 the double-precision product 1290 * 0.7 is
    just below 903, so that a period at position 903, exactly 70% of the
    limit and not more, is accepted as the cut. *)
Lemma format_message_cut_rule_counterexample :
  (let text := replicate 159 97%N ++ [DOT] ++ replicate 100 97%N in
   re_sub_escape text !! 160%nat = Some DOT
   ∧ format_message text 200 = Ok (take 185 (re_sub_escape text) ++ marker)
   ∧ take 185 (re_sub_escape text) ≠ take 161 (re_sub_escape text))
  ∧ (let text := replicate 902 97%N ++ [DOT] ++ replicate 500 97%N in
     re_sub_escape text !! 903%nat = Some DOT
     ∧ 10 * 903 = 7 * 1290
     ∧ format_message text 1290 = Ok (take 904 (re_sub_escape text) ++ marker)).
Proof.
  split.
  - split_and!; [vm_compute; reflexivity..|].
    intros Heq. apply (f_equal length) in Heq. vm_compute in Heq. discriminate.
  - split_and!; vm_compute; reflexivity.
Qed.

(** ** The handlers *)


(** Unfolding one handler run down to the world it leaves. *)
Ltac run_handler :=
  unfold handle, run, dispatch, start_command, help_command, generate_command,
    status_command, clear_command, handle_message, handle_photo, admin_command,
    stats_command, AdminControls.handle_callback, AdminControls.show_admin_panel,
    AdminControls.show_detailed_stats, AdminControls.show_system_info,
    AdminControls.show_settings, check_rate,
    mbind, M_bind, mret, M_ret, get, ask, now, modify, tg, try_except, lift, raise;
  cbn [bot calls ticks fst snd length app].

(** The run of the clear command, in any state and environment. *)
Lemma clear_command_effect (b : Bot) (user : User) (env : Env) :
  let w := (run (dispatch (Clear user)) env b).2 in
  history (bot w) (id user) = []
  ∧ calls w = [reply_text (Text context_cleared) NoParseMode NoKeyboard]
  ∧ user_requests (bot w) = user_requests b
  ∧ stats (bot w) = stats b
  ∧ (∀ other, other ≠ id user → history (bot w) other = history b other).
Proof.
  run_handler.
  destruct (transport env 0%nat); cbn [bot calls snd];
    unfold history, set_user_contexts, clear_item, item; cbn [user_contexts user_requests stats];
    (split_and!; [by rewrite lookup_insert_eq|done|done|done|]);
    intros other Hother; by rewrite lookup_insert_ne.
Qed.

(** C7. Whatever the state, the clear command leaves the user's history
    empty. Nothing precedes the clearing: no rate-limit check is made
    (the request log is untouched, so a user over the limit is served
    too), and the history is already cleared when the confirmation is
    sent, whether or not that message goes through. Counters and the
    other users' histories are unchanged. *)
Theorem clear_then_history_empty (b : Bot) (user : User) (env : Env) :
  let w := (run (dispatch (Clear user)) env b).2 in
  history (bot w) (id user) = []
  ∧ calls w = [reply_text (Text context_cleared) NoParseMode NoKeyboard]
  ∧ user_requests (bot w) = user_requests b
  ∧ stats (bot w) = stats b
  ∧ (∀ other, other ≠ id user → history (bot w) other = history b other).
Proof. apply clear_command_effect. Qed.

(** C8, as the code has it. A callback from anyone but the configured
    admin, whatever its data, is first acknowledged; once the
    acknowledgement has gone through, the message that carries the
    panel is edited into the fixed denial text. No view is rendered,
    nothing else is called and the bot object is left as it was. The
    denial takes the place of the panel: when both calls go through,
    the message shows the denial text and no keyboard, whatever it
    showed before. When the acknowledgement raises, the handler stops
    there and no denial is sent. *)
Theorem callback_from_non_admin_denied (b : Bot) (user : User) (data : list N) (env : Env)
    (Hnot_admin : id user ≠ admin_id (config b)) :
  let result := run (dispatch (Callback user data)) env b in
  let w := result.2 in
  let denial := edit_message_text (Text AdminControls.access_denied) NoParseMode NoKeyboard in
  is_admin (id user) (admin_id (config b)) = false
  ∧ bot w = b
  ∧ calls w =
      match transport env 0%nat with
      | None => [answer; denial]
      | Some _ => [answer]
      end
  ∧ result.1 =
      match transport env 0%nat, transport env 1%nat with
      | Some e, _ => Raise e
      | None, Some e => Raise e
      | None, None => Ok tt
      end
  ∧ (transport env 0%nat = None → transport env 1%nat = None →
     ∀ p, AsSpecified.panel_shown (calls w) p = (Text AdminControls.access_denied, NoKeyboard)).
Proof.
  run_handler. unfold is_admin.
  rewrite bool_decide_eq_false_2 by done.
  rewrite (bool_decide_eq_true_2 _ Hnot_admin).
  destruct b as [cfg st ctx reqs s]. cbn.
  destruct (transport env 0%nat); cbn; [done|].
  destruct (transport env 1%nat); done.
Qed.

Lemma callback_from_non_admin_denied_witness :
  let b := Bot_init (Config_init 42) 0 in
  let user := {| id := 7; first_name := lit "Eve" |} in
  let result := run (dispatch (Callback user (lit "admin_stats"))) quiet_env b in
  let w := result.2 in
  let denial := edit_message_text (Text AdminControls.access_denied) NoParseMode NoKeyboard in
  is_admin 7 42 = false
  ∧ bot w = b
  ∧ calls w = [answer; denial]
  ∧ result.1 = Ok tt
  ∧ (transport quiet_env 0%nat = None → transport quiet_env 1%nat = None →
     ∀ p, AsSpecified.panel_shown (calls w) p = (Text AdminControls.access_denied, NoKeyboard)).
Proof.
  intros b user.
  apply (callback_from_non_admin_denied b user (lit "admin_stats") quiet_env).
  cbn. lia.
Defined.

(** C8 as stated fails in two ways, for a user who is not the admin and
    presses the statistics button of a panel. When the acknowledgement
    of the query raises, the handler ends on it and the denial is never
    sent. And when everything goes through, the panel does not stay as
    it was: the message that showed it, keyboard included, now shows
    the denial text without any keyboard. *)
Lemma callback_denial_not_always_sent :
  let b := Bot_init (Config_init 42) 0 in
  let user := {| id := 7; first_name := lit "Eve" |} in
  let panel : AsSpecified.Panel := (Text AdminControls.admin_text, PanelKeyboard) in
  let down := env_with (sdk quiet_env)
                (λ k, if (k =? 0)%nat then Some (Exn (lit "Timed out")) else None) in
  id user ≠ admin_id (config b)
  ∧ calls (run (dispatch (Callback user (lit "admin_stats"))) down b).2 = [answer]
  ∧ AsSpecified.panel_shown
      (calls (run (dispatch (Callback user (lit "admin_stats"))) quiet_env b).2) panel
    = (Text AdminControls.access_denied, NoKeyboard)
  ∧ AsSpecified.panel_shown
      (calls (run (dispatch (Callback user (lit "admin_stats"))) quiet_env b).2) panel
    ≠ panel.
Proof.
  intros b user panel down. split_and!.
  - cbn. lia.
  - vm_compute. reflexivity.
  - vm_compute. reflexivity.
  - vm_compute. intros [=].
Qed.

(** *** The rate-limit check inside a handler *)

Lemma check_rate_run (user_id : Z) (env : Env) (w : World) :
  check_rate user_id env w =
    let '(ok, reqs) := rate_limit_check user_id (user_requests (bot w)) (config (bot w))
                         (clock env (ticks w)) in
    (Ok ok, {| bot := set_user_requests reqs (bot w); calls := calls w; ticks := S (ticks w) |}).
Proof.
  unfold check_rate, mbind, M_bind, mret, M_ret, get, now, modify. cbn.
  by destruct (rate_limit_check _ _ _ _).
Qed.

Lemma accepted_log (b : Bot) (user_id : Z) (env : Env) :
  accepted b user_id env →
  ∃ reqs, rate_limit_check user_id (user_requests b) (config b) (clock env 0%nat) = (true, reqs)
          ∧ item user_id reqs = log_after_accept b user_id (clock env 0%nat).
Proof.
  unfold accepted, log_after_accept. rewrite rate_limit_check_eq. cbn zeta.
  destruct (_ <=? _); cbn; [done|]. intros _.
  eexists. split; [done|]. unfold item at 1. by rewrite lookup_insert_eq.
Qed.

(** C10, as the code has it. A request that the rate limiter lets
    through and that is then refused by another local rule has used one
    slot of the user's budget: its instant is recorded in the request
    log before the refusal is decided, and the conversation histories
    are unchanged. For [/generate] with an empty prompt the counters
    are unchanged too. For a photo whose declared size is over the
    configured maximum, the refusal notice is sent inside the [try]
    block: the counters are unchanged when that call goes through (or
    when the handler has already ended on one of the two calls before
    it), and [errors] goes up by one when it raises and the report of
    the except branch is delivered. *)
Theorem policy_rejection_consumes_rate_slot (b : Bot) (user : User) (env : Env)
    (Haccepted : accepted b (id user) env) :
  (∀ args : list (list N),
     join (lit " ") args = [] →
     let b' := handle b (Generate user args) env in
     item (id user) (user_requests b') = log_after_accept b (id user) (clock env 0%nat)
     ∧ stats b' = stats b
     ∧ user_contexts b' = user_contexts b)
  ∧ (∀ (photo : list PhotoSize) (caption : option (list N)) (largest : PhotoSize) (size : Z),
       last photo = Some largest →
       file_size largest = Some size →
       max_image_size (config b) < size →
       let b' := handle b (Photo user photo caption) env in
       item (id user) (user_requests b') = log_after_accept b (id user) (clock env 0%nat)
       ∧ user_contexts b' = user_contexts b
       ∧ stats b' =
           match transport env 0%nat, transport env 1%nat,
                 transport env 2%nat, transport env 3%nat with
           | None, None, Some _, None => incr_errors (stats b)
           | _, _, _, _ => stats b
           end
       ∧ (transport env 2%nat = None → stats b' = stats b)).
Proof.
  destruct (accepted_log b (id user) env Haccepted) as (reqs & Hcheck & Hlog).
  split.
  - intros args Hprompt b'.
    assert (Hb' : b' = set_user_requests reqs b).
    { unfold b', handle, run, dispatch, generate_command.
      unfold mbind at 1, M_bind at 1. rewrite check_rate_run. cbn [bot ticks calls].
      rewrite Hcheck. cbn [negb]. rewrite Hprompt.
      unfold tg. cbn [bot calls].
      by destruct (transport env _). }
    by rewrite Hb'.
  - intros photo caption largest size Hlast Hsize Hbig b'.
    assert (Hb' : b' =
      match transport env 0%nat, transport env 1%nat,
            transport env 2%nat, transport env 3%nat with
      | None, None, Some _, None => set_stats incr_errors (set_user_requests reqs b)
      | _, _, _, _ => set_user_requests reqs b
      end).
    { unfold b', handle, run, dispatch, handle_photo.
      unfold mbind at 1, M_bind at 1. rewrite check_rate_run. cbn [bot ticks calls].
      rewrite Hcheck. cbn [negb].
      unfold mbind, M_bind, try_except, tg, get, ask, lift, modify, last_photo, size_exceeds.
      cbn [bot calls length app].
      destruct (transport env 0%nat); [reflexivity|].
      cbn [bot calls length app].
      destruct (transport env 1%nat); [reflexivity|].
      cbn [bot calls length app config set_user_requests].
      rewrite Hlast, Hsize.
      destruct (Z.ltb_spec (max_image_size (config b)) size); [|lia].
      cbn [bot calls length app].
      destruct (transport env 2%nat); [|reflexivity].
      cbn [bot calls length app].
      by destruct (transport env 3%nat). }
    rewrite Hb'.
    destruct (transport env 0%nat), (transport env 1%nat),
      (transport env 2%nat), (transport env 3%nat); done.
Qed.

Lemma policy_rejection_consumes_rate_slot_witness :
  let b := Bot_init (Config_init 42) 0 in
  let user := {| id := 7; first_name := lit "Eve" |} in
  accepted b 7 quiet_env
  ∧ (let b' := handle b (Generate user []) quiet_env in
     item 7 (user_requests b') = log_after_accept b 7 (clock quiet_env 0%nat)
     ∧ stats b' = stats b
     ∧ user_contexts b' = user_contexts b)
  ∧ (let b' := handle b (Photo user [{| file_size := Some 30000000 |}] None) quiet_env in
     item 7 (user_requests b') = log_after_accept b 7 (clock quiet_env 0%nat)
     ∧ user_contexts b' = user_contexts b
     ∧ stats b' = stats b
     ∧ (transport quiet_env 2%nat = None → stats b' = stats b)).
Proof.
  intros b user.
  assert (H : accepted b 7 quiet_env) by (vm_compute; reflexivity).
  split; [exact H|]. split.
  - exact (proj1 (policy_rejection_consumes_rate_slot b user quiet_env H) [] eq_refl).
  - exact (proj2 (policy_rejection_consumes_rate_slot b user quiet_env H)
             [{| file_size := Some 30000000 |}] None {| file_size := Some 30000000 |}
             30000000 eq_refl eq_refl eq_refl).
Defined.

(** C10 as stated fails for the photo when the refusal notice cannot be
    delivered: the request of a user let through by the limiter, with a
    photo of 30 MB, has its instant recorded and is refused for its
    size; editing the waiting notice into the refusal raises, the
    except branch reports it, and [errors] has gone from 0 to 1. *)
Lemma photo_refusal_failure_counted_as_error :
  let b := Bot_init (Config_init 42) 0 in
  let user := {| id := 7; first_name := lit "Eve" |} in
  let env := env_with (sdk quiet_env)
               (λ k, if (k =? 2)%nat then Some (Exn (lit "Timed out")) else None) in
  let b' := handle b (Photo user [{| file_size := Some 30000000 |}] None) env in
  accepted b 7 env
  ∧ max_image_size (config b) < 30000000
  ∧ item 7 (user_requests b') = log_after_accept b 7 (clock env 0%nat)
  ∧ errors (stats b) = 0
  ∧ errors (stats b') = 1
  ∧ stats b' ≠ stats b.
Proof.
  intros b user env b'. split_and!; try (vm_compute; reflexivity).
  vm_compute. intros [=].
Qed.

(** *** Text messages *)

Section TextMessage.

Variables (b : Bot) (user : User) (message_text : list N) (env : Env).

Let user_id := id user.

Hypothesis Haccepted : accepted b user_id env.

(** The conversation store after the message has been handled, provided
    the typing action went through: the user turn is appended, the list
    is cut to its last 20 entries, and the assistant turn is appended
    to that. Nothing later in the handler touches the store. *)
Lemma handle_message_contexts :
  transport env 0%nat = None →
  user_contexts (handle b (TextMessage user message_text) env) =
    <[user_id := context_sent b user message_text env
                 ++ [assistant_turn b user message_text env]]> (user_contexts b).
Proof.
  intros Htyping.
  destruct (accepted_log b user_id env Haccepted) as (reqs & Hcheck & _).
  unfold handle, run, dispatch, handle_message. fold user_id.
  unfold mbind at 1, M_bind at 1. rewrite check_rate_run. cbn [bot ticks calls].
  rewrite Hcheck. cbn [negb].
  unfold mbind, M_bind, try_except, tg, get, ask, lift, modify, now.
  cbn [bot calls ticks length app]. rewrite Htyping.
  cbn [bot calls ticks length app set_user_contexts set_user_requests user_contexts config].
  set (ctx2 := keep_last_20 user_id (append_item user_id _ (user_contexts b))).
  assert (Hitem : item user_id ctx2 = context_sent b user message_text env).
  { unfold ctx2, keep_last_20, append_item, context_sent, history, user_turn.
    unfold item at 1. rewrite lookup_insert_eq. cbn [default].
    unfold item at 1. rewrite lookup_insert_eq. done. }
  assert (Hfinal : append_item user_id
                     {| role := role_assistant;
                        content := if 1 <? len (item user_id ctx2)
                                   then chat_with_context (sdk env) (item user_id ctx2)
                                   else generate_response (sdk env) message_text [];
                        timestamp := clock env 2%nat |} ctx2
                   = <[user_id := context_sent b user message_text env
                                  ++ [assistant_turn b user message_text env]]> (user_contexts b)).
  { unfold append_item. rewrite Hitem. unfold ctx2, keep_last_20, append_item.
    rewrite !insert_insert_eq. done. }
  destruct (format_message _ _); cbn [bot calls ticks length app];
    destruct (transport env 1%nat); cbn [bot calls ticks length app];
    try destruct (transport env 2%nat);
    cbn [bot snd user_contexts set_user_contexts set_user_requests set_stats];
    exact Hfinal.
Qed.

Lemma handle_message_history :
  transport env 0%nat = None →
  history (handle b (TextMessage user message_text) env) user_id =
    context_sent b user message_text env ++ [assistant_turn b user message_text env].
Proof.
  intros Htyping. unfold history. rewrite handle_message_contexts by done.
  unfold item. by rewrite lookup_insert_eq.
Qed.

(** The whole run when every Telegram call goes through and the
    formatter returns. *)
Lemma handle_message_run (formatted : list N) :
  (∀ k, transport env k = None) →
  format_message (response_of b user message_text env) (max_message_length (config b))
    = Ok formatted →
  ∃ reqs,
    run (dispatch (TextMessage user message_text)) env b =
      (Ok tt,
       {| bot := set_stats incr_messages_processed
                   (set_user_contexts
                      (λ _, <[user_id := context_sent b user message_text env
                                         ++ [assistant_turn b user message_text env]]>
                              (user_contexts b))
                      (set_user_requests reqs b));
          calls := [reply_chat_action TYPING;
                    reply_text (Text formatted) MARKDOWN NoKeyboard];
          ticks := 3 |}).
Proof.
  intros Htransport Hformat.
  destruct (accepted_log b user_id env Haccepted) as (reqs & Hcheck & _).
  exists reqs.
  unfold handle, run, dispatch, handle_message. fold user_id.
  unfold mbind at 1, M_bind at 1. rewrite check_rate_run. cbn [bot ticks calls].
  rewrite Hcheck. cbn [negb].
  unfold mbind, M_bind, try_except, tg, get, ask, lift, modify, now.
  cbn [bot calls ticks length app]. rewrite !Htransport.
  cbn [bot calls ticks length app set_user_contexts set_user_requests user_contexts config].
  set (ctx2 := keep_last_20 user_id (append_item user_id _ (user_contexts b))).
  assert (Hitem : item user_id ctx2 = context_sent b user message_text env).
  { unfold ctx2, keep_last_20, append_item, context_sent, history, user_turn.
    unfold item at 1. rewrite lookup_insert_eq. cbn [default].
    unfold item at 1. rewrite lookup_insert_eq. done. }
  rewrite Hitem. fold (response_of b user message_text env).
  rewrite Hformat. cbn [bot calls ticks length app]. rewrite ?Htransport.
  unfold set_stats, set_user_contexts, set_user_requests.
  cbn [user_contexts config stats start_time user_requests].
  fold ctx2. unfold append_item at 1. rewrite Hitem. unfold ctx2, keep_last_20, append_item.
  rewrite !insert_insert_eq. reflexivity.
Qed.

End TextMessage.

Lemma length_slice_last {A} (n : nat) (l : list A) :
  length (slice_last n l) = (length l `min` n)%nat.
Proof. unfold slice_last. rewrite length_drop. lia. Qed.

(** C2. The cap of 20 is applied before the model is called, not after
    its reply is stored: a user with 20 or more turns on record who
    sends one more text message (let through by the rate limiter, the
    typing action delivered) is left with 21 turns, namely the last 19
    old ones, the new user turn and the assistant turn. *)
Theorem handle_message_history_exceeds_cap
    (b : Bot) (user : User) (message_text : list N) (env : Env)
    (Haccepted : accepted b (id user) env)
    (Htyping : transport env 0%nat = None)
    (Hfull : (20 ≤ length (history b (id user)))%nat) :
  let b' := handle b (TextMessage user message_text) env in
  history b' (id user) =
    drop (length (history b (id user)) - 19) (history b (id user))
    ++ [user_turn message_text env; assistant_turn b user message_text env]
  ∧ length (history b' (id user)) = 21%nat.
Proof.
  intros b'. unfold b'. rewrite handle_message_history by done.
  unfold context_sent, slice_last.
  rewrite length_app. cbn [length].
  rewrite drop_app_le by lia.
  replace (length (history b (id user)) + 1 - 20)%nat
    with (length (history b (id user)) - 19)%nat by lia.
  rewrite <- app_assoc. split; [done|].
  rewrite length_app, length_drop. cbn [length app]. lia.
Qed.

Lemma handle_message_history_exceeds_cap_witness :
  let user := {| id := 7; first_name := lit "Eve" |} in
  accepted full_bot 7 quiet_env
  ∧ transport quiet_env 0%nat = None
  ∧ (20 ≤ length (history full_bot 7))%nat
  ∧ length (history (handle full_bot (TextMessage user (lit "one more")) quiet_env) 7) = 21%nat.
Proof.
  intros user.
  assert (Hacc : accepted full_bot 7 quiet_env) by (vm_compute; reflexivity).
  assert (Hfull : (20 ≤ length (history full_bot 7))%nat) by (vm_compute; lia).
  split_and!; [exact Hacc|reflexivity|exact Hfull|].
  exact (proj2 (handle_message_history_exceeds_cap full_bot user (lit "one more")
                  quiet_env Hacc eq_refl Hfull)).
Defined.

(** When every Telegram call goes through and the limit is one the
    formatter accepts, an accepted text message counts as processed and
    never as an error, whatever the model client does. *)
Lemma handle_message_counts (b : Bot) (user : User) (message_text : list N) (env : Env) :
  accepted b (id user) env →
  (∀ k, transport env k = None) →
  Z.abs (max_message_length (config b)) < 2 ^ 1023 →
  let b' := handle b (TextMessage user message_text) env in
  messages_processed (stats b') = messages_processed (stats b) + 1
  ∧ errors (stats b') = errors (stats b).
Proof.
  intros Hacc Htransport Hlimit b'.
  destruct (format_message_total (response_of b user message_text env)
              (max_message_length (config b)) Hlimit) as [formatted Hformat].
  destruct (handle_message_run b user message_text env Hacc formatted Htransport Hformat)
    as [reqs Hrun].
  unfold b', handle. rewrite Hrun. done.
Qed.

Lemma response_of_failure (b : Bot) (user : User) (message_text : list N) (env : Env) (e : exn) :
  (∀ model contents, sdk env model contents = Raise e) →
  response_of b user message_text env = lit "Error: " ++ str_exn e.
Proof.
  intros Hfail. unfold response_of, chat_with_context, generate_response.
  cbn zeta. rewrite !Hfail. by destruct (_ <? _).
Qed.

(** C3. A failure of the model client never reaches the handler's error
    path: [generate_response] and [chat_with_context] turn it into the
    text "Error: ..." and return. With the message accepted, the limit
    one the formatter accepts and every Telegram call going through,
    that text is stored as the assistant turn, formatted and sent as the
    reply, and the message is counted in [messages_processed]; [errors]
    is not incremented. *)
Theorem handle_message_sdk_failure_counted_as_processed
    (b : Bot) (user : User) (message_text : list N) (env : Env) (e : exn)
    (Haccepted : accepted b (id user) env)
    (Htransport : ∀ k, transport env k = None)
    (Hlimit : Z.abs (max_message_length (config b)) < 2 ^ 1023)
    (Hfail : ∀ model contents, sdk env model contents = Raise e) :
  let result := run (dispatch (TextMessage user message_text)) env b in
  let b' := bot result.2 in
  ∃ formatted,
    format_message (lit "Error: " ++ str_exn e) (max_message_length (config b)) = Ok formatted
    ∧ result.1 = Ok tt
    ∧ calls result.2 = [reply_chat_action TYPING;
                        reply_text (Text formatted) MARKDOWN NoKeyboard]
    ∧ messages_processed (stats b') = messages_processed (stats b) + 1
    ∧ errors (stats b') = errors (stats b)
    ∧ last (history b' (id user)) =
        Some {| role := role_assistant; content := lit "Error: " ++ str_exn e;
                timestamp := clock env 2%nat |}.
Proof.
  intros result b'.
  pose proof (response_of_failure b user message_text env e Hfail) as Hresp.
  destruct (format_message_total (lit "Error: " ++ str_exn e)
              (max_message_length (config b)) Hlimit) as [formatted Hformat].
  destruct (handle_message_run b user message_text env Haccepted formatted Htransport)
    as [reqs Hrun]; [by rewrite Hresp|].
  exists formatted. unfold b', result. rewrite Hrun. cbn [fst snd bot calls].
  split_and!; [done..|].
  unfold history, item. cbn [set_stats set_user_contexts user_contexts].
  rewrite lookup_insert_eq. cbn [default from_option Datatypes.id]. rewrite last_snoc.
  unfold assistant_turn. by rewrite Hresp.
Qed.

Lemma handle_message_sdk_failure_counted_as_processed_witness :
  let b := Bot_init (Config_init 42) 0 in
  let user := {| id := 7; first_name := lit "Eve" |} in
  let result := run (dispatch (TextMessage user (lit "hi"))) failing_env b in
  ∃ formatted,
    format_message (lit "Error: " ++ lit "503 UNAVAILABLE") 4096 = Ok formatted
    ∧ result.1 = Ok tt
    ∧ calls result.2 = [reply_chat_action TYPING;
                        reply_text (Text formatted) MARKDOWN NoKeyboard]
    ∧ messages_processed (stats (bot result.2)) = 0 + 1
    ∧ errors (stats (bot result.2)) = 0
    ∧ last (history (bot result.2) 7) =
        Some {| role := role_assistant; content := lit "Error: " ++ lit "503 UNAVAILABLE";
                timestamp := clock failing_env 2%nat |}.
Proof.
  intros b user.
  apply (handle_message_sdk_failure_counted_as_processed b user (lit "hi") failing_env
           (Exn (lit "503 UNAVAILABLE"))).
  - vm_compute. reflexivity.
  - reflexivity.
  - vm_compute. reflexivity.
  - reflexivity.
Defined.

(** ** What every handler preserves *)

Section Frame.

Context (R : Bot → Bot → Prop) `{!Reflexive R, !Transitive R}.

Lemma preserves_ret {A} (a : A) : preserves R (mret a).
Proof. intros env w. reflexivity. Qed.

Lemma preserves_bind {A B} (m : M A) (k : A → M B) :
  preserves R m → (∀ a, preserves R (k a)) → preserves R (m ≫= k).
Proof.
  intros Hm Hk env w. unfold mbind, M_bind.
  specialize (Hm env w). destruct (m env w) as [[a|e] w']; cbn in *; [|done].
  etrans; [exact Hm|]. apply Hk.
Qed.

Lemma preserves_try {A} (body : M A) (handler : exn → M A) :
  preserves R body → (∀ e, preserves R (handler e)) → preserves R (try_except body handler).
Proof.
  intros Hm Hk env w. unfold try_except.
  specialize (Hm env w). destruct (body env w) as [[a|e] w']; cbn in *; [done|].
  etrans; [exact Hm|]. apply Hk.
Qed.

Lemma preserves_tg (c : Call) : preserves R (tg c).
Proof. intros env w. unfold tg. destruct (transport env _); reflexivity. Qed.

Lemma preserves_now : preserves R now.
Proof. intros env w. reflexivity. Qed.

Lemma preserves_get : preserves R get.
Proof. intros env w. reflexivity. Qed.

Lemma preserves_ask : preserves R ask.
Proof. intros env w. reflexivity. Qed.

Lemma preserves_lift {A} (r : Res A) : preserves R (lift r).
Proof. intros env w. reflexivity. Qed.

Lemma preserves_raise {A} (e : exn) : preserves R (raise (A := A) e).
Proof. intros env w. reflexivity. Qed.

Lemma preserves_modify (f : Bot → Bot) : (∀ b, R b (f b)) → preserves R (modify f).
Proof. intros Hf env w. apply Hf. Qed.

End Frame.

(** One step of a proof that a handler preserves a relation: follow the
    structure of the handler. *)
Ltac frame_step :=
  lazymatch goal with
  | |- preserves _ (mbind _ _) => apply preserves_bind; [apply _| |intros ?]
  | |- preserves _ (mret _) => apply preserves_ret; apply _
  | |- preserves _ (try_except _ _) => apply preserves_try; [apply _| |intros ?]
  | |- preserves _ (tg _) => apply preserves_tg; apply _
  | |- preserves _ now => apply preserves_now; apply _
  | |- preserves _ get => apply preserves_get; apply _
  | |- preserves _ ask => apply preserves_ask; apply _
  | |- preserves _ (lift _) => apply preserves_lift; apply _
  | |- preserves _ (raise _) => apply preserves_raise; apply _
  | |- preserves _ (modify _) => apply preserves_modify; intros ?
  | |- preserves _ (if ?c then _ else _) => destruct c
  | |- preserves _ (match ?x with _ => _ end) => destruct x
  end.

Ltac frame_handler :=
  unfold dispatch, start_command, help_command, generate_command,
    status_command, clear_command, handle_message, handle_photo, admin_command,
    stats_command, AdminControls.handle_callback, AdminControls.show_admin_panel,
    AdminControls.show_detailed_stats, AdminControls.show_system_info,
    AdminControls.show_settings, check_rate;
  repeat frame_step.

#[local] Instance counters_le_refl : Reflexive counters_le.
Proof. intros b. unfold counters_le. lia. Qed.

#[local] Instance counters_le_trans : Transitive counters_le.
Proof. intros b1 b2 b3. unfold counters_le. lia. Qed.

Lemma counters_le_set_user_requests r b : counters_le b (set_user_requests r b).
Proof. unfold counters_le. cbn. lia. Qed.

Lemma counters_le_set_user_contexts f b : counters_le b (set_user_contexts f b).
Proof. unfold counters_le. cbn. lia. Qed.

Lemma counters_le_incr b :
  counters_le b (set_stats incr_messages_processed b)
  ∧ counters_le b (set_stats incr_images_analyzed b)
  ∧ counters_le b (set_stats incr_images_generated b)
  ∧ counters_le b (set_stats incr_errors b).
Proof. unfold counters_le. cbn. lia. Qed.

Lemma dispatch_counters_le (u : Update) : preserves counters_le (dispatch u).
Proof.
  destruct u; frame_handler;
    first [ apply counters_le_set_user_requests
          | apply counters_le_set_user_contexts
          | apply counters_le_incr ].
Qed.

Lemma handle_counters_le (b : Bot) (u : Update) (env : Env) : counters_le b (handle b u env).
Proof. apply (dispatch_counters_le u env {| bot := b; calls := []; ticks := 0 |}). Qed.

Lemma handle_all_counters_le (us : list (Update * Env)) :
  ∀ b, counters_le b (handle_all b us).
Proof.
  induction us as [|[u env] us IH]; intros b; cbn [handle_all]; [done|].
  etrans; [apply (handle_counters_le b u env)|apply IH].
Qed.

(** C9. No handler ever lowers a counter or resets one, and none
    changes the start instant: each of the four counters after any
    sequence of handled updates is at least what it was before, and
    [start_time] and [uptime_start] are what they were. *)
Theorem counters_never_decrease (b : Bot) (us : list (Update * Env)) :
  let b' := handle_all b us in
  messages_processed (stats b) ≤ messages_processed (stats b')
  ∧ images_analyzed (stats b) ≤ images_analyzed (stats b')
  ∧ images_generated (stats b) ≤ images_generated (stats b')
  ∧ errors (stats b) ≤ errors (stats b')
  ∧ uptime_start (stats b') = uptime_start (stats b)
  ∧ start_time b' = start_time b.
Proof. exact (handle_all_counters_le us b). Qed.

(** ** The bound that the conversation store does keep *)

#[local] Instance same_contexts_refl : Reflexive same_contexts.
Proof. by intros b. Qed.

#[local] Instance same_contexts_trans : Transitive same_contexts.
Proof. intros b1 b2 b3. unfold same_contexts. congruence. Qed.

(** Only two updates write to the conversation store: the clear command
    and a text message. *)
Lemma dispatch_same_contexts (u : Update) :
  (∀ user, u ≠ Clear user) → (∀ user text, u ≠ TextMessage user text) →
  preserves same_contexts (dispatch u).
Proof.
  intros Hclear Htext.
  destruct u; try (by destruct (Hclear u)); try (by destruct (Htext u message_text));
    frame_handler; reflexivity.
Qed.

Lemma handle_message_contexts_cases (b : Bot) (user : User) (message_text : list N) (env : Env) :
  user_contexts (handle b (TextMessage user message_text) env) = user_contexts b
  ∨ user_contexts (handle b (TextMessage user message_text) env) =
      <[id user := context_sent b user message_text env
                   ++ [assistant_turn b user message_text env]]> (user_contexts b).
Proof.
  destruct (rate_limit_check (id user) (user_requests b) (config b) (clock env 0%nat))
    as [ok reqs] eqn:Hcheck.
  destruct ok; [destruct (transport env 0%nat) as [e|] eqn:Htyping|].
  - left. unfold handle, run, dispatch, handle_message.
    unfold mbind at 1, M_bind at 1. rewrite check_rate_run. cbn [bot ticks calls].
    rewrite Hcheck. cbn [negb].
    unfold mbind at 1, M_bind at 1, tg at 1. cbn [bot calls length].
    rewrite Htyping. reflexivity.
  - right. apply handle_message_contexts; [|done].
    unfold accepted. by rewrite Hcheck.
  - left. unfold handle, run, dispatch, handle_message.
    unfold mbind at 1, M_bind at 1. rewrite check_rate_run. cbn [bot ticks calls].
    rewrite Hcheck. cbn [negb]. unfold tg. cbn [bot calls].
    by destruct (transport env _).
Qed.

Lemma handle_history_bound (b : Bot) (u : Update) (env : Env) :
  (∀ user_id, (length (history b user_id) ≤ 21)%nat) →
  ∀ user_id, (length (history (handle b u env) user_id) ≤ 21)%nat.
Proof.
  intros Hb user_id.
  assert (Hother : (∀ user, u ≠ Clear user) → (∀ user text, u ≠ TextMessage user text) →
                   (length (history (handle b u env) user_id) ≤ 21)%nat).
  { intros Hclear Htext. pose proof (dispatch_same_contexts u Hclear Htext) as Hsame.
    unfold history, handle, run. rewrite Hsame. apply Hb. }
  destruct u as [| | | |user| | |user text| |]; try (by apply Hother).
  - pose proof (clear_command_effect b user env) as (Hempty & _ & _ & _ & Hothers).
    destruct (decide (user_id = id user)) as [->|Hne].
    + unfold handle. rewrite Hempty. cbn. lia.
    + unfold handle. rewrite (Hothers user_id Hne). apply Hb.
  - unfold history.
    destruct (handle_message_contexts_cases b user text env) as [-> | ->]; [apply Hb|].
    unfold item. destruct (decide (user_id = id user)) as [->|Hne].
    + rewrite lookup_insert_eq. cbn [default from_option Datatypes.id].
      rewrite length_app. unfold context_sent. rewrite length_slice_last. cbn [length]. lia.
    + rewrite lookup_insert_ne by done. apply Hb.
Qed.

(** From the start of the process on, no history ever holds more than
    21 turns (and the model is never sent more than 20, see
    [handle_message_contexts]). *)
Lemma history_at_most_21 (c : Config) (t : Z) (us : list (Update * Env)) (user_id : Z) :
  (length (history (handle_all (Bot_init c t) us) user_id) ≤ 21)%nat.
Proof.
  assert (Hgen : ∀ b, (∀ uid, (length (history b uid) ≤ 21)%nat) →
                      ∀ uid, (length (history (handle_all b us) uid) ≤ 21)%nat).
  { induction us as [|[u env] us IH]; intros b Hb uid; cbn [handle_all]; [apply Hb|].
    apply IH. by apply handle_history_bound. }
  apply Hgen. intros uid. unfold history, item, Bot_init. cbn [user_contexts].
  rewrite lookup_empty. cbn. lia.
Qed.

(** * Further properties *)

(** ** Escaping *)

Lemma backslash_reserved : is_reserved BACKSLASH = true.
Proof. reflexivity. Qed.

Lemma re_sub_escape_inj (a b : list N) :
  re_sub_escape a = re_sub_escape b → a = b.
Proof.
  revert b. induction a as [|c a IH]; intros [|d b]; cbn [re_sub_escape].
  - done.
  - by destruct (is_reserved d).
  - by destruct (is_reserved c).
  - destruct (is_reserved c) eqn:Hc, (is_reserved d) eqn:Hd.
    + intros [= -> Heq]. f_equal. by apply IH.
    + intros [= <- _]. by rewrite backslash_reserved in Hd.
    + intros [= -> _]. by rewrite backslash_reserved in Hc.
    + intros [= -> Heq]. f_equal. by apply IH.
Qed.

(** X1. The escaping done by [format_message] loses nothing: two
    different texts never have the same escaped form. *)
Theorem format_message_escaping_injective (a b : list N) :
  re_sub_escape a = re_sub_escape b ↔ a = b.
Proof. split; [apply re_sub_escape_inj|by intros ->]. Qed.

Lemma re_sub_escape_plain (text : list N) :
  Forall (λ c, is_reserved c = false) text → re_sub_escape text = text.
Proof.
  induction 1 as [|c t Hc _ IH]; [done|]. cbn. by rewrite Hc, IH.
Qed.

(** X2. A non-empty text without any character of the reserved class
    and no longer than the limit is returned as it is. *)
Theorem format_message_plain_text_unchanged (text : list N) (max_length : Z)
    (Hne : text ≠ [])
    (Hplain : Forall (λ c, is_reserved c = false) text)
    (Hfits : len text ≤ max_length) :
  format_message text max_length = Ok text.
Proof.
  rewrite format_message_eq by done. cbn zeta.
  rewrite re_sub_escape_plain by done.
  by destruct (Z.ltb_spec max_length (len text)); [lia|].
Qed.

Lemma format_message_plain_text_unchanged_witness :
  format_message (lit "Hello world") 4096 = Ok (lit "Hello world").
Proof.
  apply format_message_plain_text_unchanged.
  - discriminate.
  - repeat constructor.
  - vm_compute. discriminate.
Defined.

(** X3. For a limit from 100 up to the largest a float can take, the
    formatter always returns a string, and that string has at most
    [max_length + 2] characters. *)
Theorem format_message_returns_bounded (text : list N) (max_length : Z)
    (Hmin : 100 ≤ max_length) (Hmax : max_length < 2 ^ 1023) :
  ∃ out, format_message text max_length = Ok out ∧ len out ≤ max_length + 2.
Proof.
  destruct (format_message_total text max_length) as [out Hout].
  { by rewrite Z.abs_eq by lia. }
  exists out. split; [done|]. by eapply format_message_length_bound.
Qed.

Lemma format_message_returns_bounded_witness :
  ∃ out, format_message (replicate 5000 42%N) 4096 = Ok out ∧ len out ≤ 4096 + 2.
Proof. apply format_message_returns_bounded; [lia|reflexivity]. Defined.

(** *** [escape_markdown_v2] *)

Lemma backslash_not_escape_char : BACKSLASH ∉ escape_chars.
Proof. apply (bool_decide_eq_false_1 _). vm_compute. reflexivity. Qed.

Lemma is_reserved_escape_chars (c : N) :
  c ≠ BACKSLASH → is_reserved c = bool_decide (c ∈ escape_chars).
Proof.
  intros Hc. unfold is_reserved, reserved. apply bool_decide_ext.
  rewrite elem_of_app, list_elem_of_singleton. fold escape_chars.
  split; [intros [Hin|Heq]; [exact Hin|done]|by left].
Qed.

(** X4. [escape_markdown_v2] and the escaping of [format_message]
    differ on the backslash only: on a text without backslash they
    give the same result. *)
Theorem escape_markdown_v2_agrees (text : list N)
    (Hno_backslash : BACKSLASH ∉ text) :
  escape_markdown_v2 text = re_sub_escape text.
Proof.
  induction text as [|c t IH]; [done|].
  apply not_elem_of_cons in Hno_backslash as [Hc Ht].
  cbn [escape_markdown_v2 re_sub_escape].
  rewrite (is_reserved_escape_chars c) by done. rewrite IH by done.
  by destruct (bool_decide _).
Qed.

Lemma escape_markdown_v2_agrees_witness :
  escape_markdown_v2 (lit "a_b (c).") = re_sub_escape (lit "a_b (c).").
Proof.
  apply escape_markdown_v2_agrees.
  apply (bool_decide_eq_false_1 _). vm_compute. reflexivity.
Defined.

(** An escaped text never starts with a character of [escape_chars]. *)
Lemma escape_markdown_v2_head (text rest : list N) (c : N) :
  escape_markdown_v2 text = c :: rest → c ∉ escape_chars.
Proof.
  destruct text as [|x t]; [done|]. cbn [escape_markdown_v2].
  case_bool_decide as Hx; intros [= <- _]; [apply backslash_not_escape_char|done].
Qed.

(** X5. [escape_markdown_v2] loses nothing either, although it leaves
    backslashes alone: two different texts never have the same
    escaped form. *)
Theorem escape_markdown_v2_injective (a b : list N) :
  escape_markdown_v2 a = escape_markdown_v2 b ↔ a = b.
Proof.
  split; [|by intros ->].
  revert b. induction a as [|c a IH]; intros [|d b]; cbn [escape_markdown_v2].
  - done.
  - by case_bool_decide.
  - by case_bool_decide.
  - case_bool_decide as Hc; case_bool_decide as Hd; cbn [app].
    + intros [= -> Heq]. f_equal. by apply IH.
    + intros [= <- Heq]. symmetry in Heq.
      by destruct (escape_markdown_v2_head _ _ _ Heq).
    + intros [= -> Heq]. by destruct (escape_markdown_v2_head _ _ _ Heq).
    + intros [= -> Heq]. f_equal. by apply IH.
Qed.

(** ** [truncate_text] *)

(** X6. [truncate_text] returns a text that fits as it is; a longer one
    becomes a prefix of it followed by the suffix, and the result is
    within [max_length] (then it is exactly [max_length] long) if and
    only if the suffix itself fits in [max_length]. *)
Theorem truncate_text_length (text suffix : list N) (max_length : Z) :
  (len text ≤ max_length → truncate_text text max_length suffix = text)
  ∧ (max_length < len text →
       (∃ n : nat, truncate_text text max_length suffix = take n text ++ suffix)
       ∧ (len (truncate_text text max_length suffix) ≤ max_length ↔ len suffix ≤ max_length)
       ∧ (len suffix ≤ max_length → len (truncate_text text max_length suffix) = max_length)).
Proof.
  unfold truncate_text. split.
  - intros Hfit. by destruct (Z.leb_spec (len text) max_length); [|lia].
  - intros Hlong. destruct (Z.leb_spec (len text) max_length); [lia|].
    split; [|split].
    + destruct (slice_to_take text (max_length - len suffix)) as [n ->]. eauto.
    + rewrite len_app. unfold slice_to.
      destruct (Z.ltb_spec (max_length - len suffix) 0) as [Hneg|Hpos];
        unfold len in *; rewrite length_take; lia.
    + intros Hs. rewrite len_app, len_slice_to_le; unfold len in *; lia.
Qed.

Lemma truncate_text_length_witness :
  truncate_text (lit "conversation") 8 (lit "...") = take 5 (lit "conversation") ++ lit "..."
  ∧ len (truncate_text (lit "conversation") 8 (lit "...")) = 8.
Proof.
  pose proof (truncate_text_length (lit "conversation") (lit "...") 8) as [_ H].
  destruct H as (_ & _ & Hlen); [vm_compute; reflexivity|].
  split; [reflexivity|]. apply Hlen. vm_compute. discriminate.
Defined.

(** ** [sanitize_filename] *)

Lemma rfind_not_elem (s : list N) (c : N) : rfind s c = -1 ↔ c ∉ s.
Proof.
  split.
  - intros Hr [i Hi]%list_elem_of_lookup. by destruct (rfind_none s c Hr i).
  - intros Hnot. pose proof (rfind_lower s c).
    destruct (decide (rfind s c = -1)) as [|Hne]; [done|].
    destruct (rfind_some s c) as (i & _ & Hi & _); [lia|].
    destruct Hnot. apply list_elem_of_lookup. eauto.
Qed.

Lemma rfind_elem (s : list N) (c : N) : c ∈ s ↔ rfind s c ≠ -1.
Proof.
  rewrite rfind_not_elem. split; [by intros Hin Hnot|].
  intros Hnn. by destruct (decide (c ∈ s)).
Qed.

Lemma rfind_last_occurrence (s : list N) (c : N) (i : nat) :
  s !! i = Some c → (∀ j : nat, (i < j)%nat → s !! j ≠ Some c) → rfind s c = Z.of_nat i.
Proof.
  intros Hi Hlast. pose proof (rfind_lower s c).
  destruct (decide (rfind s c = -1)) as [Hr|Hne].
  { by destruct (rfind_none s c Hr i). }
  destruct (rfind_some s c) as (k & Hk & Hlook & Hklast); [lia|].
  rewrite Hk. f_equal.
  destruct (decide (i < k)%nat); [by destruct (Hlast k)|].
  destruct (decide (k < i)%nat); [by destruct (Hklast i)|]. lia.
Qed.

Lemma rfind_app_last (a e : list N) (c : N) :
  c ∉ e → rfind (a ++ c :: e) c = len a.
Proof.
  intros Hnot. apply rfind_last_occurrence.
  - by rewrite list_lookup_middle.
  - intros j Hj Hlook. rewrite lookup_app_r in Hlook by lia.
    destruct (j - length a)%nat as [|k] eqn:Hk; [lia|]. cbn in Hlook.
    destruct Hnot. apply list_elem_of_lookup. eauto.
Qed.

Section SanitizeFilenameProperties.

Variable word_char : N → bool.

Let safe := safe_char word_char.
Let subst_unsafe (filename : list N) : list N :=
  map (λ c, if safe c then c else UNDERSCORE) filename.

Lemma underscore_safe : safe UNDERSCORE = true.
Proof. unfold safe, safe_char. cbn. by rewrite orb_true_r. Qed.

Lemma dot_safe : safe DOT = true.
Proof. unfold safe, safe_char. cbn. by rewrite orb_true_r. Qed.

Lemma subst_unsafe_safe (filename : list N) :
  Forall (λ c, safe c = true) (subst_unsafe filename).
Proof.
  unfold subst_unsafe. apply Forall_map, Forall_forall. intros c _. cbn.
  destruct (safe c) eqn:Hc; [done|apply underscore_safe].
Qed.

Lemma subst_unsafe_id (filename : list N) :
  Forall (λ c, safe c = true) filename → subst_unsafe filename = filename.
Proof.
  unfold subst_unsafe. induction 1 as [|c t Hc _ IH]; [done|].
  cbn. by rewrite Hc, IH.
Qed.

Lemma subst_unsafe_rfind_dot (filename : list N) :
  rfind (subst_unsafe filename) DOT = rfind filename DOT.
Proof.
  unfold subst_unsafe. induction filename as [|c t IH]; [done|].
  cbn [map rfind]. rewrite IH.
  destruct (0 <=? rfind t DOT); [done|].
  destruct (safe c) eqn:Hc; [done|].
  destruct (N.eqb_spec c DOT) as [->|_]; [by rewrite dot_safe in Hc|done].
Qed.

Lemma subst_unsafe_len (filename : list N) : len (subst_unsafe filename) = len filename.
Proof. unfold subst_unsafe, len. by rewrite length_map. Qed.

Lemma sanitize_filename_eq (filename : list N) :
  sanitize_filename word_char filename =
    let cleaned := subst_unsafe filename in
    if 255 <? len filename then
      if bool_decide (DOT ∈ filename) then
        take 250 (take (Z.to_nat (rfind filename DOT)) cleaned)
        ++ match drop (S (Z.to_nat (rfind filename DOT))) cleaned with
           | [] => []
           | ext => DOT :: ext
           end
      else take 250 cleaned
    else cleaned.
Proof.
  unfold sanitize_filename. fold safe. fold (subst_unsafe filename). cbn zeta.
  rewrite subst_unsafe_len.
  destruct (255 <? len filename); [|done].
  assert (Hdot : bool_decide (DOT ∈ subst_unsafe filename) = bool_decide (DOT ∈ filename)).
  { apply bool_decide_ext. rewrite !rfind_elem. by rewrite subst_unsafe_rfind_dot. }
  rewrite Hdot. unfold rsplit_dot. rewrite subst_unsafe_rfind_dot.
  destruct (bool_decide (DOT ∈ filename)); rewrite slice_to_nonneg by lia;
    change (Z.to_nat 250) with 250%nat.
  - by destruct (drop _ _).
  - by rewrite app_nil_r.
Qed.

(** Where the last period is, when there is one. *)
Lemma last_dot_position (filename : list N) :
  DOT ∈ filename →
  ∃ i : nat, rfind filename DOT = Z.of_nat i ∧ (i < length filename)%nat
             ∧ DOT ∉ drop (S i) (subst_unsafe filename).
Proof.
  intros Hdot%rfind_elem. pose proof (rfind_lower filename DOT).
  destruct (rfind_some (subst_unsafe filename) DOT) as (i & Hi & Hlook & Hlast).
  { rewrite subst_unsafe_rfind_dot. lia. }
  rewrite subst_unsafe_rfind_dot in Hi. exists i. split_and!; [done| |].
  - apply lookup_lt_Some in Hlook. unfold subst_unsafe in Hlook.
    by rewrite length_map in Hlook.
  - intros [j Hj]%list_elem_of_lookup. rewrite lookup_drop in Hj.
    by apply (Hlast (S i + j)%nat); [lia|].
Qed.

Lemma sanitize_filename_chars (filename : list N) :
  Forall (λ c, safe_char word_char c = true) (sanitize_filename word_char filename).
Proof.
  rewrite sanitize_filename_eq. cbn zeta. fold safe.
  pose proof (subst_unsafe_safe filename) as Hsafe.
  destruct (255 <? len filename); [|done].
  case_bool_decide; [|by apply Forall_take].
  apply Forall_app. split; [by do 2 apply Forall_take|].
  pose proof (Forall_drop _ (S (Z.to_nat (rfind filename DOT))) _ Hsafe) as Hext.
  destruct (drop _ _); [done|]. constructor; [apply dot_safe|done].
Qed.

(** X7. Every character of a sanitized file name is a word character,
    a hyphen, an underscore or a period. *)
Theorem sanitize_filename_safe (filename : list N) :
  Forall (λ c, safe_char word_char c = true) (sanitize_filename word_char filename).
Proof. apply sanitize_filename_chars. Qed.

(** X8. A name of at most 255 characters keeps its length. A longer one
    keeps 250 characters at most of what precedes its last period and
    all of what follows it: without a period the result has 250
    characters, with an extension of at most 4 characters it has at
    most 255, and with an extension of 255 characters or more it is
    still longer than 255. *)
Theorem sanitize_filename_length (filename : list N) :
  (len filename ≤ 255 →
     len (sanitize_filename word_char filename) = len filename)
  ∧ (255 < len filename → DOT ∉ filename →
       len (sanitize_filename word_char filename) = 250)
  ∧ (255 < len filename → DOT ∈ filename →
       len filename - rfind filename DOT ≤ 5 →
       len (sanitize_filename word_char filename) ≤ 255)
  ∧ (255 < len filename → DOT ∈ filename →
       255 < len filename - rfind filename DOT →
       255 < len (sanitize_filename word_char filename)).
Proof.
  rewrite sanitize_filename_eq. cbn zeta.
  pose proof (subst_unsafe_len filename) as Hlen.
  split_and!.
  - intros Hshort. by destruct (Z.ltb_spec 255 (len filename)); [lia|].
  - intros Hlong Hnodot. destruct (Z.ltb_spec 255 (len filename)); [|lia].
    rewrite bool_decide_eq_false_2 by done.
    unfold len in *. rewrite length_take. lia.
  - intros Hlong Hdot Hext. destruct (Z.ltb_spec 255 (len filename)); [|lia].
    rewrite bool_decide_eq_true_2 by done.
    destruct (last_dot_position filename Hdot) as (i & Hi & Hlt & _).
    rewrite Hi, Nat2Z.id in *.
    assert (Hdrop : length (drop (S i) (subst_unsafe filename)) = (length filename - S i)%nat).
    { rewrite length_drop. unfold len in Hlen. lia. }
    rewrite len_app. unfold len in *. rewrite !length_take.
    destruct (drop (S i) (subst_unsafe filename)); cbn [length] in *; lia.
  - intros Hlong Hdot Hext. destruct (Z.ltb_spec 255 (len filename)); [|lia].
    rewrite bool_decide_eq_true_2 by done.
    destruct (last_dot_position filename Hdot) as (i & Hi & Hlt & _).
    rewrite Hi, Nat2Z.id in *.
    assert (Hdrop : length (drop (S i) (subst_unsafe filename)) = (length filename - S i)%nat).
    { rewrite length_drop. unfold len in Hlen. lia. }
    rewrite len_app. unfold len in *. rewrite !length_take.
    destruct (drop (S i) (subst_unsafe filename)); cbn [length] in *; lia.
Qed.

(** A sanitized name longer than 255 characters is made of at most 250
    characters, a period, and an extension without any period. *)
Lemma sanitize_filename_shape (filename : list N) :
  len (sanitize_filename word_char filename) ≤ 255
  ∨ ∃ name ext, sanitize_filename word_char filename = name ++ DOT :: ext
                ∧ (length name ≤ 250)%nat ∧ DOT ∉ ext.
Proof.
  rewrite sanitize_filename_eq. cbn zeta.
  destruct (Z.ltb_spec 255 (len filename)) as [Hflong|Hfshort].
  2: { left. rewrite subst_unsafe_len. lia. }
  case_bool_decide as Hdot.
  2: { left. unfold len. rewrite length_take. lia. }
  destruct (last_dot_position filename Hdot) as (i & Hi & Hlt & Hnodot).
  rewrite Hi, Nat2Z.id.
  destruct (drop (S i) (subst_unsafe filename)) as [|n ext] eqn:Hext.
  { left. rewrite app_nil_r. unfold len. rewrite length_take. lia. }
  right. eexists _, _. split_and!; [done| |done].
  rewrite length_take. lia.
Qed.

(** X9. Sanitizing is idempotent: a sanitized name is left as it is by
    a second pass. *)
Theorem sanitize_filename_idempotent (filename : list N) :
  sanitize_filename word_char (sanitize_filename word_char filename)
  = sanitize_filename word_char filename.
Proof.
  pose proof (sanitize_filename_chars filename) as Hsafe. fold safe in Hsafe.
  pose proof (sanitize_filename_shape filename) as Hshape.
  set (r := sanitize_filename word_char filename) in *.
  rewrite (sanitize_filename_eq r). cbn zeta. rewrite (subst_unsafe_id r Hsafe).
  destruct (Z.ltb_spec 255 (len r)) as [Hlong|]; [|done].
  destruct Hshape as [Hshort | (name & ext & Hr & Hname & Hnodot)]; [lia|].
  rewrite Hr in *.
  rewrite bool_decide_eq_true_2 by (apply elem_of_app; right; by left).
  rewrite rfind_app_last by done. unfold len. rewrite Nat2Z.id.
  rewrite take_app_length, take_ge by lia.
  replace (drop (S (length name)) (name ++ DOT :: ext)) with ext.
  2: { replace (S (length name)) with (length name + 1)%nat by lia.
       rewrite <- drop_drop. by rewrite drop_app_length. }
  destruct ext as [|n ext]; [|done].
  rewrite len_app in Hlong. unfold len in Hlong. cbn in Hlong. lia.
Qed.

End SanitizeFilenameProperties.

Lemma sanitize_filename_length_witness :
  len (sanitize_filename ascii_word_char (replicate 300 97%N ++ lit ".txt")) ≤ 255.
Proof.
  apply (proj1 (proj2 (proj2
           (sanitize_filename_length ascii_word_char (replicate 300 97%N ++ lit ".txt"))))).
  - vm_compute. reflexivity.
  - apply (bool_decide_eq_true_1 _). vm_compute. reflexivity.
  - vm_compute. discriminate.
Defined.

(** ** The guarantee of the rate limiter *)

Section SlidingWindow.

Variable config : Config.
Variable user_id : Z.

Let window := timedelta_seconds (rate_limit_window config).
Let limit := rate_limit_messages config.

Hypothesis window_positive : 0 < window.

Lemma filter_length_le {A} (P Q : A → Prop) `{∀ x, Decision (P x)} `{∀ x, Decision (Q x)}
    (l : list A) :
  (∀ x, P x → Q x) → (length (filter P l) ≤ length (filter Q l))%nat.
Proof.
  intros HPQ. induction l as [|x l IH]; [done|].
  destruct (decide (P x)) as [HP|HP].
  - rewrite (filter_cons_True P) by done. rewrite (filter_cons_True Q) by auto. cbn. lia.
  - rewrite (filter_cons_False P) by done.
    destruct (decide (Q x)); [rewrite filter_cons_True by done; cbn; lia|].
    by rewrite filter_cons_False.
Qed.

Lemma filter_filter_later (now last : Z) (l : list Z) :
  last ≤ now →
  filter (λ a, now - window < a) (filter (λ a, last - window < a) l)
  = filter (λ a, now - window < a) l.
Proof.
  intros Hle. induction l as [|x l IH]; [done|].
  destruct (decide (last - window < x)).
  - rewrite (filter_cons_True (λ a, last - window < a)) by done.
    destruct (decide (now - window < x)).
    + rewrite !(filter_cons_True (λ a, now - window < a)) by done. by rewrite IH.
    + rewrite !(filter_cons_False (λ a, now - window < a)) by done. done.
  - rewrite (filter_cons_False (λ a, last - window < a)) by done.
    rewrite (filter_cons_False (λ a, now - window < a)) by lia. done.
Qed.

(** The invariant carried along a run of checks at non-decreasing
    instants: the log holds the allowed instants of the last window. *)
Lemma check_all_window (times : list Z) :
  ∀ (user_requests : gmap Z (list Z)) (last : Z) (allowed : list Z),
    StronglySorted Z.le (last :: times) →
    item user_id user_requests = filter (λ a, last - window < a) allowed →
    (∀ t, Z.of_nat (length (filter (λ a, t - window < a ∧ a ≤ t) allowed)) ≤ Z.max 0 limit) →
    ∀ t, Z.of_nat (length (filter (λ a, t - window < a ∧ a ≤ t)
                    (allowed ++ allowed_instants times
                                  (check_all user_id config user_requests times).1)))
         ≤ Z.max 0 limit.
Proof.
  induction times as [|now ts IH]; intros user_requests last allowed Hsorted Hlog Hinv t.
  - cbn. rewrite app_nil_r. apply Hinv.
  - apply StronglySorted_inv in Hsorted as [Hsorted Hlast].
    apply Forall_cons in Hlast as [Hnow _].
    cbn [check_all]. rewrite rate_limit_check_eq. cbn zeta. fold window limit.
    rewrite Hlog, filter_filter_later by done.
    set (kept := filter (λ a, now - window < a) allowed).
    destruct (Z.leb_spec limit (len kept)) as [Hfull|Hroom].
    + destruct (check_all user_id config (<[user_id:=kept]> user_requests) ts)
        as [oks r] eqn:Hrest.
      cbn [fst allowed_instants app].
      replace oks with (check_all user_id config (<[user_id:=kept]> user_requests) ts).1
        by (by rewrite Hrest).
      apply (IH _ now); [done| |done].
      unfold item. by rewrite lookup_insert_eq.
    + destruct (check_all user_id config (<[user_id:=kept ++ [now]]> user_requests) ts)
        as [oks r] eqn:Hrest.
      cbn [fst allowed_instants app].
      replace oks with (check_all user_id config (<[user_id:=kept ++ [now]]> user_requests) ts).1
        by (by rewrite Hrest).
      change (now :: allowed_instants ts ?x) with ([now] ++ allowed_instants ts x).
      rewrite app_assoc.
      apply (IH _ now); [done| |].
      * unfold item. rewrite lookup_insert_eq. cbn [default from_option Datatypes.id].
        rewrite filter_app. fold kept. by rewrite filter_cons_True, filter_nil by lia.
      * intros t'. rewrite filter_app, length_app.
        destruct (decide (t' - window < now ∧ now ≤ t')) as [Hin|Hout].
        -- rewrite (filter_cons_True _ now) by done. rewrite filter_nil. cbn [length].
           assert (Himp : ∀ a, t' - window < a ∧ a ≤ t' → now - window < a)
             by (intros a [? ?]; destruct Hin; lia).
           pose proof (filter_length_le (λ a, t' - window < a ∧ a ≤ t')
                         (λ a, now - window < a) allowed Himp) as Hsub.
           fold kept in Hsub. unfold len in Hroom. lia.
        -- rewrite (filter_cons_False _ now) by done. rewrite filter_nil. cbn [length].
           specialize (Hinv t'). lia.
Qed.

End SlidingWindow.

(** X10. What the rate limiter guarantees: for a user with an empty
    log, a positive window and checks made at non-decreasing instants,
    no span of one window length, whatever its end [t], holds more
    allowed checks than the limit. *)
Theorem rate_limit_never_exceeded
    (config : Config) (user_id : Z) (user_requests : gmap Z (list Z)) (times : list Z) (t : Z)
    (Hwindow : 0 < rate_limit_window config)
    (Hfresh : item user_id user_requests = [])
    (Hsorted : StronglySorted Z.le times) :
  let allowed :=
    allowed_instants times (check_all user_id config user_requests times).1 in
  len (filter (λ a, t - timedelta_seconds (rate_limit_window config) < a ∧ a ≤ t) allowed)
    ≤ Z.max 0 (rate_limit_messages config).
Proof.
  intros allowed. unfold allowed, len.
  destruct times as [|t0 ts]; [cbn; lia|].
  apply (check_all_window config user_id ltac:(unfold timedelta_seconds; lia)
           (t0 :: ts) user_requests t0 []).
  - constructor; [done|]. constructor; [lia|].
    by apply StronglySorted_inv in Hsorted as [_ ?].
  - by rewrite Hfresh.
  - intros t'. cbn. lia.
Qed.

Lemma rate_limit_never_exceeded_witness :
  let times := replicate 12 0 ++ [30000000; 59000000; 60000000] in
  len (filter (λ a, 60000000 - timedelta_seconds 60 < a ∧ a ≤ 60000000)
         (allowed_instants times (check_all 7 (Config_init 1) ∅ times).1))
    ≤ Z.max 0 10.
Proof.
  intros times.
  apply (rate_limit_never_exceeded (Config_init 1) 7 ∅ times 60000000).
  - reflexivity.
  - reflexivity.
  - unfold times. cbn. repeat (constructor; [|repeat constructor; lia]). constructor.
Defined.

(** ** What the handlers leave alone *)

(** As [frame_handler], with the rate-limit check taken as one step
    justified by the lemma [lem]. *)
Ltac frame_step_with lem :=
  lazymatch goal with
  | |- preserves _ (check_rate _) => apply lem
  | _ => frame_step
  end.

Ltac frame_handler_with lem :=
  unfold dispatch, start_command, help_command, generate_command,
    status_command, clear_command, handle_message, handle_photo, admin_command,
    stats_command, AdminControls.handle_callback, AdminControls.show_admin_panel,
    AdminControls.show_detailed_stats, AdminControls.show_system_info,
    AdminControls.show_settings;
  repeat frame_step_with lem.

#[local] Instance unchanged_refl : Reflexive unchanged.
Proof. by intros b. Qed.

#[local] Instance unchanged_trans : Transitive unchanged.
Proof. intros b1 b2 b3. unfold unchanged. congruence. Qed.

(** X11. The handlers of [/start], [/help], [/status], [/admin],
    [/stats] and of the panel callbacks only read: whoever sends the
    update and whatever the outside answers, the bot object is exactly
    what it was. *)
Theorem read_only_handlers_change_nothing (b : Bot) (u : Update) (env : Env)
    (Hread : read_only u = true) :
  handle b u env = b.
Proof.
  assert (Hdispatch : preserves unchanged (dispatch u)).
  { destruct u; try discriminate; frame_handler. }
  apply (Hdispatch env {| bot := b; calls := []; ticks := 0 |}).
Qed.

Lemma read_only_handlers_change_nothing_witness :
  handle full_bot (StatsCmd {| id := 42; first_name := lit "Root" |}) quiet_env = full_bot.
Proof. by apply read_only_handlers_change_nothing. Defined.

#[local] Instance others_untouched_refl user_id : Reflexive (others_untouched user_id).
Proof. by intros b other _. Qed.

#[local] Instance others_untouched_trans user_id : Transitive (others_untouched user_id).
Proof.
  intros b1 b2 b3 H12 H23 other Hother.
  destruct (H12 other Hother) as [Hc Hr]. destruct (H23 other Hother) as [Hc' Hr'].
  split; congruence.
Qed.

Lemma rate_limit_check_other (user_id other : Z) (reqs : gmap Z (list Z))
    (config : Config) (now : Z) :
  other ≠ user_id →
  (rate_limit_check user_id reqs config now).2 !! other = reqs !! other.
Proof.
  intros Hne. rewrite rate_limit_check_eq. cbn zeta.
  destruct (_ <=? _); cbn [snd]; by rewrite lookup_insert_ne.
Qed.

Lemma check_rate_others_untouched (user_id : Z) :
  preserves (others_untouched user_id) (check_rate user_id).
Proof.
  intros env w other Hother. rewrite check_rate_run.
  pose proof (rate_limit_check_other user_id other (user_requests (bot w))
                (config (bot w)) (clock env (ticks w)) Hother) as Hlook.
  destruct (rate_limit_check _ _ _ _) as [ok reqs]. cbn in *. by rewrite Hlook.
Qed.

Lemma insert_others_untouched {A} (user_id other : Z) (x : list A) (d : gmap Z (list A)) :
  other ≠ user_id → <[user_id := x]> d !! other = d !! other.
Proof. intros Hne. by rewrite lookup_insert_ne. Qed.

Lemma dispatch_others_untouched (u : Update) :
  preserves (others_untouched (id (sender u))) (dispatch u).
Proof.
  destruct u; cbn [sender];
    frame_handler_with check_rate_others_untouched;
    intros other Hother; cbn;
    unfold append_item, keep_last_20, clear_item;
    by rewrite ?insert_others_untouched.
Qed.

(** X12. Handling an update writes to the sender's entries only: the
    history and the request log of every other user are what they
    were, key by key. *)
Theorem other_users_untouched (b : Bot) (u : Update) (env : Env) (other : Z)
    (Hother : other ≠ id (sender u)) :
  user_contexts (handle b u env) !! other = user_contexts b !! other
  ∧ user_requests (handle b u env) !! other = user_requests b !! other.
Proof.
  exact (dispatch_others_untouched u env {| bot := b; calls := []; ticks := 0 |} other Hother).
Qed.

Lemma other_users_untouched_witness :
  let u := TextMessage {| id := 8; first_name := lit "Bob" |} (lit "hello") in
  user_contexts (handle full_bot u quiet_env) !! 7 = user_contexts full_bot !! 7
  ∧ user_requests (handle full_bot u quiet_env) !! 7 = user_requests full_bot !! 7.
Proof.
  intros u. apply (other_users_untouched full_bot u quiet_env 7). cbn. lia.
Defined.

(** X13. Only [/clear] and text messages write to the conversation
    store: photos, [/generate] and every other update leave all the
    histories, and the set of users on record, as they were. *)
Theorem only_clear_and_text_write_contexts (b : Bot) (u : Update) (env : Env)
    (Hnot_clear : ∀ user, u ≠ Clear user)
    (Hnot_text : ∀ user message_text, u ≠ TextMessage user message_text) :
  user_contexts (handle b u env) = user_contexts b.
Proof.
  exact (dispatch_same_contexts u Hnot_clear Hnot_text env
           {| bot := b; calls := []; ticks := 0 |}).
Qed.

Lemma only_clear_and_text_write_contexts_witness :
  let u := Photo {| id := 7; first_name := lit "Eve" |} [{| file_size := Some 1000 |}]
                 (Some (lit "my cat")) in
  user_contexts (handle full_bot u quiet_env) = user_contexts full_bot.
Proof.
  intros u. by apply only_clear_and_text_write_contexts.
Defined.

(** X14. From the start of the process on, whatever updates are handled
    and whatever the outside answers, no user's history ever holds
    more than 21 turns. *)
Theorem history_never_exceeds_21 (c : Config) (t : Z) (us : list (Update * Env)) (user_id : Z) :
  (length (history (handle_all (Bot_init c t) us) user_id) ≤ 21)%nat.
Proof. apply history_at_most_21. Qed.

#[local] Instance users_kept_refl : Reflexive users_kept.
Proof. intros b. unfold users_kept. set_solver. Qed.

#[local] Instance users_kept_trans : Transitive users_kept.
Proof. intros b1 b2 b3. unfold users_kept. set_solver. Qed.

Lemma dispatch_users_kept (u : Update) : preserves users_kept (dispatch u).
Proof.
  destruct u; frame_handler; unfold users_kept; cbn;
    unfold append_item, keep_last_20, clear_item; rewrite ?dom_insert_L; set_solver.
Qed.

Lemma handle_all_users_kept (us : list (Update * Env)) (b : Bot) :
  users_kept b (handle_all b us).
Proof.
  revert b. induction us as [|[u env] us IH]; intros b; cbn [handle_all]; [done|].
  etrans; [|apply IH].
  apply (dispatch_users_kept u env {| bot := b; calls := []; ticks := 0 |}).
Qed.

(** X15. A user is never removed from the conversation store, so the
    [active_users] figure of the metrics never goes down; [/clear]
    empties the history but keeps the key, and even creates it for a
    user who never wrote. *)
Theorem active_users_never_decrease (b : Bot) (us : list (Update * Env)) :
  dom (user_contexts b) ⊆ dom (user_contexts (handle_all b us))
  ∧ active_users b ≤ active_users (handle_all b us)
  ∧ (∀ user env, id user ∈ dom (user_contexts (handle b (Clear user) env))).
Proof.
  pose proof (handle_all_users_kept us b) as Hkept. unfold users_kept in Hkept.
  split_and!; [done| |].
  - unfold active_users. rewrite <- !size_dom.
    apply inj_le. by apply subseteq_size.
  - intros user env. unfold handle, run, dispatch, clear_command.
    unfold mbind, M_bind, modify, tg. cbn [bot calls length].
    destruct (transport env _); cbn; unfold clear_item; rewrite dom_insert_L; set_solver.
Qed.

(** ** The request logs stay within the limit *)

#[local] Instance keeps_logs_bounded_refl : Reflexive keeps_logs_bounded.
Proof. by intros b. Qed.

#[local] Instance keeps_logs_bounded_trans : Transitive keeps_logs_bounded.
Proof.
  intros b1 b2 b3 [Hc12 H12] [Hc23 H23]. split; [congruence|]. auto.
Qed.

Lemma item_insert {A} (k k' : Z) (x : list A) (d : gmap Z (list A)) :
  item k' (<[k := x]> d) = if bool_decide (k' = k) then x else item k' d.
Proof.
  unfold item. case_bool_decide as Hk.
  - subst. by rewrite lookup_insert_eq.
  - by rewrite lookup_insert_ne.
Qed.

Lemma check_rate_keeps_logs_bounded (user_id : Z) :
  preserves keeps_logs_bounded (check_rate user_id).
Proof.
  intros env w. rewrite check_rate_run.
  pose proof (rate_limit_check_eq (config (bot w)) user_id (user_requests (bot w))
                (clock env (ticks w))) as Heq.
  cbn zeta in Heq.
  destruct (rate_limit_check _ _ _ _) as [ok reqs]. cbn [snd bot].
  split; [done|]. intros Hbounded other.
  cbn [set_user_requests user_requests config].
  specialize (Hbounded user_id) as Hold. specialize (Hbounded other).
  set (kept := filter _ (item user_id (user_requests (bot w)))) in Heq.
  assert (Hkept : len kept ≤ len (item user_id (user_requests (bot w)))).
  { unfold len. apply inj_le. apply length_filter. }
  destruct (Z.leb_spec (rate_limit_messages (config (bot w))) (len kept));
    injection Heq as _ ->; rewrite item_insert; case_bool_decide; try done; try lia.
  unfold len in *. rewrite length_app. cbn [length]. lia.
Qed.

Lemma dispatch_keeps_logs_bounded (u : Update) :
  preserves keeps_logs_bounded (dispatch u).
Proof.
  destruct u; frame_handler_with check_rate_keeps_logs_bounded; by split.
Qed.

Lemma handle_all_keeps_logs_bounded (us : list (Update * Env)) (b : Bot) :
  keeps_logs_bounded b (handle_all b us).
Proof.
  revert b. induction us as [|[u env] us IH]; intros b; cbn [handle_all]; [done|].
  etrans; [|apply IH].
  apply (dispatch_keeps_logs_bounded u env {| bot := b; calls := []; ticks := 0 |}).
Qed.

(** X16. From the start of the process on, whatever updates are handled,
    the request log of a user never holds more instants than the
    configured limit: the log only grows by an accepted check, and a
    check is accepted only below the limit. *)
Theorem request_log_never_exceeds_limit
    (c : Config) (t : Z) (us : list (Update * Env)) (user_id : Z) :
  len (item user_id (user_requests (handle_all (Bot_init c t) us)))
    ≤ Z.max 0 (rate_limit_messages c).
Proof.
  destruct (handle_all_keeps_logs_bounded us (Bot_init c t)) as [Hconfig Hbounded].
  change c with (config (Bot_init c t)) at 2. rewrite <- Hconfig. apply Hbounded.
  intros uid. unfold item, len. cbn [Bot_init user_requests].
  rewrite lookup_empty. cbn [default length]. lia.
Qed.

(** ** The calls a handler makes *)

Section Emits.

Context (P : Call → Prop).

Lemma emits_ret {A} (a : A) : emits P (mret a).
Proof. intros env w. exists []. by rewrite app_nil_r. Qed.

Lemma emits_bind {A B} (m : M A) (k : A → M B) :
  emits P m → (∀ a, emits P (k a)) → emits P (m ≫= k).
Proof.
  intros Hm Hk env w. unfold mbind, M_bind.
  destruct (Hm env w) as (new1 & H1 & HP1).
  destruct (m env w) as [[a|e] w']; cbn [snd] in *; [|by exists new1].
  destruct (Hk a env w') as (new2 & H2 & HP2).
  exists (new1 ++ new2). rewrite H2, H1, app_assoc. split; [done|].
  by apply Forall_app.
Qed.

Lemma emits_try {A} (body : M A) (handler : exn → M A) :
  emits P body → (∀ e, emits P (handler e)) → emits P (try_except body handler).
Proof.
  intros Hm Hk env w. unfold try_except.
  destruct (Hm env w) as (new1 & H1 & HP1).
  destruct (body env w) as [[a|e] w']; cbn [snd] in *; [by exists new1|].
  destruct (Hk e env w') as (new2 & H2 & HP2).
  exists (new1 ++ new2). rewrite H2, H1, app_assoc. split; [done|].
  by apply Forall_app.
Qed.

Lemma emits_tg (c : Call) : P c → emits P (tg c).
Proof.
  intros Hc env w. exists [c]. unfold tg.
  destruct (transport env _); cbn; (split; [done|by repeat constructor]).
Qed.

Lemma emits_silent {A} (m : M A) :
  (∀ env w, calls (m env w).2 = calls w) → emits P m.
Proof. intros Hm env w. exists []. by rewrite Hm, app_nil_r. Qed.

Lemma emits_check_rate (user_id : Z) : emits P (check_rate user_id).
Proof.
  apply emits_silent. intros env w. rewrite check_rate_run.
  by destruct (rate_limit_check _ _ _ _).
Qed.

End Emits.

(** One step of a proof about the calls of a handler: follow its
    structure; what is left are the calls themselves. *)
Ltac emits_step :=
  lazymatch goal with
  | |- emits _ (check_rate _) => apply emits_check_rate
  | |- emits _ (mbind _ _) => apply emits_bind; [|intros ?]
  | |- emits _ (mret _) => apply emits_ret
  | |- emits _ (try_except _ _) => apply emits_try; [|intros ?]
  | |- emits _ (tg _) => apply emits_tg
  | |- emits _ now => by apply emits_silent
  | |- emits _ get => by apply emits_silent
  | |- emits _ ask => by apply emits_silent
  | |- emits _ (lift _) => by apply emits_silent
  | |- emits _ (raise _) => by apply emits_silent
  | |- emits _ (modify _) => by apply emits_silent
  | |- emits _ (if ?c then _ else _) => destruct c
  | |- emits _ (match ?x with _ => _ end) => destruct x
  | |- emits _ (let '(_, _) := ?x in _) => destruct x
  end.

Ltac emits_handler :=
  unfold dispatch, start_command, help_command, generate_command,
    status_command, clear_command, handle_message, handle_photo, admin_command,
    stats_command, AdminControls.handle_callback, AdminControls.show_admin_panel,
    AdminControls.show_detailed_stats, AdminControls.show_system_info,
    AdminControls.show_settings;
  repeat emits_step.

Lemma emits_run (P : Call → Prop) {A} (m : M A) (env : Env) (b : Bot) :
  emits P m → Forall P (calls (run m env b).2).
Proof.
  intros Hm. destruct (Hm env {| bot := b; calls := []; ticks := 0 |}) as (new & Hnew & HP).
  unfold run. by rewrite Hnew.
Qed.

(** X17. Nothing meant for the admin reaches anyone else: while an
    update from a user other than the configured admin is handled,
    whatever its kind and payload, no call carries the detailed
    statistics, the system or settings view, the admin lines of the
    welcome message or a panel keyboard. *)
Theorem non_admin_sees_no_admin_view (b : Bot) (u : Update) (env : Env)
    (Hnot_admin : id (sender u) ≠ admin_id (config b)) :
  Forall (λ c, admin_view c = false) (calls (run (dispatch u) env b).2).
Proof.
  assert (Hcheck : is_admin (id (sender u)) (admin_id (config b)) = false).
  { unfold is_admin. by rewrite bool_decide_eq_false_2. }
  destruct u; cbn [sender] in *;
    try (apply emits_run; emits_handler; reflexivity).
  - run_handler. rewrite Hcheck. destruct (transport env _); by repeat constructor.
  - run_handler. rewrite Hcheck. cbn [negb length calls].
    destruct (transport env _); by repeat constructor.
  - run_handler. rewrite Hcheck. cbn [negb length calls].
    destruct (transport env _); by repeat constructor.
  - run_handler. rewrite (bool_decide_eq_true_2 _ Hnot_admin).
    destruct (transport env 0%nat); cbn; [by repeat constructor|].
    destruct (transport env 1%nat); by repeat constructor.
Qed.

Lemma non_admin_sees_no_admin_view_witness :
  Forall (λ c, admin_view c = false)
    (calls (run (dispatch (StatsCmd {| id := 7; first_name := lit "Eve" |})) quiet_env full_bot).2).
Proof.
  apply non_admin_sees_no_admin_view. cbn. lia.
Defined.

(** X18. The callback handler, whoever presses the button and whatever
    the data, first acknowledges the query and after that only edits
    the message carrying the panel, at most twice (a view, and the
    error report if rendering it failed); it sends no new message. For
    the admin, data that is none of the eight known values is
    acknowledged and otherwise ignored. *)
Theorem callback_only_edits_panel (b : Bot) (user : User) (data : list N) (env : Env) :
  let sent := calls (run (dispatch (Callback user data)) env b).2 in
  (∃ rest, sent = answer :: rest
           ∧ Forall (λ c, is_panel_edit c = true) rest
           ∧ (length rest ≤ 2)%nat)
  ∧ (id user = admin_id (config b) → data ∉ known_callbacks → sent = [answer]).
Proof.
  intros sent. split.
  - unfold sent, run, dispatch, AdminControls.handle_callback.
    unfold mbind at 1, M_bind at 1, get at 1. cbn [bot].
    unfold mbind at 1, M_bind at 1, tg at 1. cbn [calls app length bot ticks].
    destruct (transport env 0%nat); cbn [snd calls].
    { exists []. split_and!; [done|constructor|cbn; lia]. }
    case_bool_decide.
    { unfold tg. cbn [calls app length]. eexists.
      destruct (transport env 1%nat); cbn [snd calls];
        (split_and!; [done|by repeat constructor|cbn; lia]). }
    unfold try_except, AdminControls.show_admin_panel, AdminControls.show_system_info,
      AdminControls.show_settings, mbind, M_bind, mret, M_ret, ask, raise, tg.
    cbn [calls app length bot ticks].
    repeat case_bool_decide; cbn [calls app length bot ticks];
      try destruct (psutil_import env); cbn [calls app length bot ticks snd];
      destruct (transport env 1%nat); cbn [calls app length bot ticks snd];
      try destruct (transport env 2%nat); cbn [calls app length bot ticks snd];
      eexists; (split_and!; [done|by repeat constructor|cbn; lia]).
  - intros Hadmin Hunknown. unfold sent. run_handler.
    destruct (transport env 0%nat); [done|]. cbn [snd calls bot].
    rewrite bool_decide_eq_false_2 by (intros Hne; by apply Hne).
    unfold known_callbacks in Hunknown.
    rewrite !not_elem_of_cons in Hunknown.
    destruct Hunknown as (H1 & H2 & H3 & H4 & H5 & H6 & H7 & H8 & _).
    rewrite !bool_decide_eq_false_2 by done. done.
Qed.

Lemma callback_only_edits_panel_witness :
  calls (run (dispatch (Callback {| id := 42; first_name := lit "Root" |} (lit "admin_reboot")))
             quiet_env full_bot).2 = [answer].
Proof.
  apply (callback_only_edits_panel full_bot {| id := 42; first_name := lit "Root" |}
           (lit "admin_reboot") quiet_env).
  - reflexivity.
  - apply (bool_decide_eq_false_1 _). vm_compute. reflexivity.
Defined.

(** ** Outcomes of the rate-limited handlers *)

Lemma refused_log (b : Bot) (user_id : Z) (env : Env) :
  ¬ accepted b user_id env →
  let kept := filter (λ t, clock env 0%nat - timedelta_seconds (rate_limit_window (config b)) < t)
                     (item user_id (user_requests b)) in
  rate_limit_check user_id (user_requests b) (config b) (clock env 0%nat)
    = (false, <[user_id := kept]> (user_requests b))
  ∧ rate_limit_messages (config b) ≤ len kept.
Proof.
  unfold accepted. rewrite rate_limit_check_eq. cbn zeta.
  destruct (Z.leb_spec (rate_limit_messages (config b))
              (len (filter (λ t, clock env 0%nat
                                 - timedelta_seconds (rate_limit_window (config b)) < t)
                           (item user_id (user_requests b))))); cbn [fst]; [done|].
  intros Hne. by destruct Hne.
Qed.

(** X19. A text message, photo or [/generate] that the rate limiter
    refuses gets the fixed warning and nothing else: no other call is
    made, counters and histories are unchanged, and the attempt is not
    recorded (the user's log is only purged of the instants that left
    the window, and still fills the limit). *)
Theorem rate_limited_update_refused (b : Bot) (u : Update) (env : Env)
    (Hlimited : rate_limited u = true)
    (Hrefused : ¬ accepted b (id (sender u)) env) :
  let w := (run (dispatch u) env b).2 in
  let kept := filter (λ t, clock env 0%nat - timedelta_seconds (rate_limit_window (config b)) < t)
                     (item (id (sender u)) (user_requests b)) in
  calls w = [reply_text (Text rate_limit_warning) NoParseMode NoKeyboard]
  ∧ stats (bot w) = stats b
  ∧ user_contexts (bot w) = user_contexts b
  ∧ item (id (sender u)) (user_requests (bot w)) = kept
  ∧ rate_limit_messages (config b) ≤ len kept.
Proof.
  intros w kept.
  destruct (refused_log b (id (sender u)) env Hrefused) as [Hcheck Hfull].
  assert (Hw : w = {| bot := set_user_requests (<[id (sender u) := kept]> (user_requests b)) b;
                      calls := [reply_text (Text rate_limit_warning) NoParseMode NoKeyboard];
                      ticks := 1 |}).
  { unfold w.
    destruct u; try discriminate; cbn [sender] in *;
      unfold run, dispatch, generate_command, handle_message, handle_photo;
      unfold mbind at 1, M_bind at 1; rewrite check_rate_run; cbn [bot ticks calls];
      rewrite Hcheck; cbn [negb]; unfold tg; cbn [bot calls ticks length app];
      by destruct (transport env 0%nat). }
  rewrite Hw. cbn [bot calls set_user_requests stats user_contexts user_requests].
  split_and!; [done..| |done].
  unfold item at 1. by rewrite lookup_insert_eq.
Qed.

Lemma rate_limited_update_refused_witness :
  let u := TextMessage {| id := 7; first_name := lit "Eve" |} (lit "again") in
  calls (run (dispatch u) quiet_env busy_bot).2
    = [reply_text (Text rate_limit_warning) NoParseMode NoKeyboard].
Proof.
  intros u.
  apply (rate_limited_update_refused busy_bot u quiet_env); [reflexivity|].
  vm_compute. discriminate.
Defined.

Lemma generate_image_data (sdk : Sdk) (prompt : list N) :
  (generate_image sdk prompt).1 = None
  ∨ ∃ x d, (generate_image sdk prompt).1 = Some (x :: d).
Proof.
  unfold generate_image.
  destruct (sdk _ _) as [response|e]; [|by left].
  destruct (candidates response) as [|[[|part parts]|] rest]; try by left.
  destruct (scan_parts _ _ _) as [[[|x d]|] description]; try by left.
  right. by exists x, d.
Qed.

(** X20. An accepted [/generate] with a prompt, every Telegram call
    going through, ends in exactly one of two ways, decided by what
    [generate_image] returns: an image is sent with its caption, the
    waiting notice is deleted and [images_generated] goes up by one;
    or the notice is turned into the failure text and [errors] goes up
    by one. A failing model client is the second case. Nothing else
    changes in the counters. *)
Theorem generate_command_outcome (b : Bot) (user : User) (args : list (list N)) (env : Env)
    (Haccepted : accepted b (id user) env)
    (Hprompt : join (lit " ") args ≠ [])
    (Htransport : ∀ k, transport env k = None) :
  let prompt := join (lit " ") args in
  let w := (run (dispatch (Generate user args)) env b).2 in
  let opening := [reply_chat_action UPLOAD_PHOTO;
                  reply_text (Text generating) NoParseMode NoKeyboard] in
  match generate_image (sdk env) prompt with
  | (Some image_data, description) =>
      stats (bot w) = incr_images_generated (stats b)
      ∧ calls w = opening
                  ++ [reply_photo image_data (caption_head ++ prompt ++ [LF; LF] ++ description);
                      delete]
  | (None, description) =>
      stats (bot w) = incr_errors (stats b)
      ∧ calls w = opening ++ [edit_text (Text (failed_generate ++ description)) NoParseMode]
  end.
Proof.
  intros prompt w opening.
  destruct (accepted_log b (id user) env Haccepted) as (reqs & Hcheck & _).
  pose proof (generate_image_data (sdk env) (join (lit " ") args)) as Hdata.
  assert (Hw : w =
    match generate_image (sdk env) (join (lit " ") args) with
    | (Some image_data, description) =>
        {| bot := set_stats incr_images_generated (set_user_requests reqs b);
           calls := opening
                    ++ [reply_photo image_data
                          (caption_head ++ join (lit " ") args ++ [LF; LF] ++ description);
                        delete];
           ticks := 1 |}
    | (None, description) =>
        {| bot := set_stats incr_errors (set_user_requests reqs b);
           calls := opening ++ [edit_text (Text (failed_generate ++ description)) NoParseMode];
           ticks := 1 |}
    end).
  { unfold w, opening, run, dispatch, generate_command.
    unfold mbind at 1, M_bind at 1. rewrite check_rate_run. cbn [bot ticks calls].
    rewrite Hcheck. cbn [negb].
    destruct (join (lit " ") args) as [|c rest] eqn:Hp; [done|].
    unfold mbind, M_bind, try_except, tg, ask, modify.
    cbn [bot calls ticks length app]. rewrite !Htransport.
    cbn [bot calls ticks length app].
    destruct (generate_image (sdk env) (c :: rest)) as [image_data description].
    cbn [fst] in Hdata.
    destruct Hdata as [->|(x & d & ->)]; cbn [bot calls ticks length app];
      rewrite ?Htransport; cbn [bot calls ticks length app snd]; done. }
  rewrite Hw. unfold prompt.
  by destruct (generate_image (sdk env) (join (lit " ") args)) as [[image_data|] description].
Qed.

Lemma generate_command_outcome_witness :
  let b := Bot_init (Config_init 42) 0 in
  let env := env_with image_sdk (λ _, None) in
  let w := (run (dispatch (Generate {| id := 7; first_name := lit "Eve" |} [lit "a"; lit "cat"]))
                env b).2 in
  match generate_image (sdk env) (join (lit " ") [lit "a"; lit "cat"]) with
  | (Some image_data, description) =>
      stats (bot w) = incr_images_generated (stats b)
      ∧ calls w = [reply_chat_action UPLOAD_PHOTO;
                   reply_text (Text generating) NoParseMode NoKeyboard]
                  ++ [reply_photo image_data
                        (caption_head ++ join (lit " ") [lit "a"; lit "cat"]
                         ++ [LF; LF] ++ description);
                      delete]
  | (None, description) =>
      stats (bot w) = incr_errors (stats b)
      ∧ calls w = [reply_chat_action UPLOAD_PHOTO;
                   reply_text (Text generating) NoParseMode NoKeyboard]
                  ++ [edit_text (Text (failed_generate ++ description)) NoParseMode]
  end.
Proof.
  intros b env.
  apply (generate_command_outcome b {| id := 7; first_name := lit "Eve" |}
           [lit "a"; lit "cat"] env).
  - vm_compute. reflexivity.
  - vm_compute. discriminate.
  - reflexivity.
Defined.








(** ** Text messages: failure of the reply, and a fresh start *)

(** X24. When the reply to an accepted text message cannot be sent,
    the exchange is in the history all the same: the user turn and the
    model's answer were stored before the send was tried. The message
    is not counted as processed; [errors] goes up by one if the
    apology that the except branch sends goes through, and is left
    as it was if that fails too. *)
Theorem handle_message_reply_failure
    (b : Bot) (user : User) (message_text : list N) (env : Env) (e : exn)
    (Haccepted : accepted b (id user) env)
    (Htyping : transport env 0%nat = None)
    (Hreply : transport env 1%nat = Some e)
    (Hlimit : Z.abs (max_message_length (config b)) < 2 ^ 1023) :
  let b' := handle b (TextMessage user message_text) env in
  history b' (id user) =
    context_sent b user message_text env ++ [assistant_turn b user message_text env]
  ∧ messages_processed (stats b') = messages_processed (stats b)
  ∧ errors (stats b') =
      match transport env 2%nat with
      | None => errors (stats b) + 1
      | Some _ => errors (stats b)
      end.
Proof.
  intros b'. split; [by apply handle_message_history|].
  destruct (accepted_log b (id user) env Haccepted) as (reqs & Hcheck & _).
  assert (Hstats : stats b' =
    match transport env 2%nat with
    | None => incr_errors (stats b)
    | Some _ => stats b
    end).
  { unfold b', handle, run, dispatch, handle_message.
    unfold mbind at 1, M_bind at 1. rewrite check_rate_run. cbn [bot ticks calls].
    rewrite Hcheck. cbn [negb].
    unfold mbind, M_bind, try_except, tg, get, ask, lift, modify, now.
    cbn [bot calls ticks length app]. rewrite Htyping.
    cbn [bot calls ticks length app set_user_contexts set_user_requests user_contexts config].
    match goal with
    | |- context [format_message ?t ?m] =>
        destruct (format_message_total t m Hlimit) as [out Hout]; rewrite Hout
    end.
    cbn [bot calls ticks length app]. rewrite Hreply.
    cbn [bot calls ticks length app].
    by destruct (transport env 2%nat). }
  rewrite Hstats. by destruct (transport env 2%nat).
Qed.

Lemma handle_message_reply_failure_witness :
  let b := Bot_init (Config_init 42) 0 in
  let user := {| id := 7; first_name := lit "Eve" |} in
  let env := env_with (sdk quiet_env)
               (λ k, if (k =? 1)%nat then Some (Exn (lit "timed out")) else None) in
  let b' := handle b (TextMessage user (lit "hi")) env in
  history b' (id user) = context_sent b user (lit "hi") env ++ [assistant_turn b user (lit "hi") env]
  ∧ messages_processed (stats b') = messages_processed (stats b)
  ∧ errors (stats b') = errors (stats b) + 1.
Proof.
  intros b user env.
  apply (handle_message_reply_failure b user (lit "hi") env (Exn (lit "timed out"))).
  - vm_compute. reflexivity.
  - reflexivity.
  - reflexivity.
  - vm_compute. reflexivity.
Defined.




(** ** The model layer *)

Lemma scan_parts_eq (parts : list Part) (image_data : option (list Byte.byte))
    (description : list N) :
  scan_parts parts image_data description =
    (match last (omap part_image parts) with
     | Some data => Some data
     | None => image_data
     end,
     description ++ concat (map part_caption parts)).
Proof.
  revert image_data description.
  induction parts as [|part parts IH]; intros image_data description.
  - cbn. by rewrite app_nil_r.
  - cbn [scan_parts omap list_omap map concat]. unfold part_image at 1, part_caption at 1.
    destruct (part_text part) as [[|c t]|]; cbn [str_or];
      try (destruct (inline_data part) as [[|x d]|]);
      rewrite IH; cbn [app]; rewrite ?last_cons, <- ?app_assoc;
      try done; by destruct (last (omap part_image parts)).
Qed.

Lemma part_image_nonempty (part : Part) (data : list Byte.byte) :
  part_image part = Some data → data ≠ [].
Proof.
  unfold part_image.
  destruct (part_text part) as [[|c t]|]; destruct (inline_data part) as [[|x d]|];
    intros [= <-]; done.
Qed.

Lemma last_part_image_nonempty (parts : list Part) (data : list Byte.byte) :
  last (omap part_image parts) = Some data → data ≠ [].
Proof.
  intros Hlast. apply last_Some_elem_of in Hlast.
  apply list_elem_of_omap in Hlast as (part & _ & Hpart).
  by apply (part_image_nonempty part).
Qed.

(** X26. What [generate_image] makes of an answer of the client: only
    the first candidate is read; the image returned is the last
    non-empty inline data among the parts that carry no text (the
    image of a part that has text is ignored); the description is the
    texts of the parts joined in order, or the fixed success text when
    there is none; and without such an image the result is [None]
    with the fixed failure text, whatever texts there were. *)
Theorem generate_image_picks_last_image
    (sdk : Sdk) (prompt : list N) (response : Response) (parts : list Part)
    (rest : list (option (list Part)))
    (Hanswer : sdk image_gen_model (Prompt (lit "Generate an image: " ++ prompt)) = Ok response)
    (Hcandidates : candidates response = Some parts :: rest)
    (Hparts : parts ≠ []) :
  generate_image sdk prompt =
    match last (omap part_image parts) with
    | Some image_data =>
        (Some image_data,
         let description := concat (map part_caption parts) in
         match description with
         | [] => lit "Image generated successfully"
         | _ => description
         end)
    | None => (None, lit "No image data received")
    end.
Proof.
  unfold generate_image. rewrite Hanswer, Hcandidates.
  destruct parts as [|part parts]; [done|].
  rewrite scan_parts_eq. cbn [app].
  pose proof (last_part_image_nonempty (part :: parts)) as Hdata.
  destruct (last (omap part_image (part :: parts))) as [[|x d]|]; [|reflexivity..].
  by destruct (Hdata [] eq_refl).
Qed.

Lemma generate_image_picks_last_image_witness :
  generate_image image_sdk (lit "a cat")
    = (Some [Byte.x89; Byte.x50], lit "Image generated successfully").
Proof.
  exact (generate_image_picks_last_image image_sdk (lit "a cat") _ _ [] eq_refl eq_refl
           ltac:(discriminate)).
Defined.

(** X27. The model sees the last ten turns only: whatever precedes
    the last ten turns of the history handed to [chat_with_context]
    has no influence on its result (the handler stores up to twenty). *)
Theorem chat_with_context_last_ten (sdk : Sdk) (old recent : list Turn)
    (Hrecent : (10 ≤ length recent)%nat) :
  chat_with_context sdk (old ++ recent) = chat_with_context sdk recent.
Proof.
  unfold chat_with_context, slice_last. cbn zeta.
  rewrite length_app, drop_app_ge by lia.
  by replace (length old + length recent - 10 - length old)%nat
    with (length recent - 10)%nat by lia.
Qed.

Lemma chat_with_context_last_ten_witness :
  let turn := {| role := role_user; content := lit "hi"; timestamp := 0 |} in
  chat_with_context (sdk quiet_env) (replicate 5 turn ++ replicate 10 turn)
    = chat_with_context (sdk quiet_env) (replicate 10 turn).
Proof.
  intros turn. apply chat_with_context_last_ten. cbn. lia.
Defined.

Lemma str_or_nonempty (x : option (list N)) (d : list N) : d ≠ [] → str_or x d ≠ [].
Proof. by destruct x as [[|c t]|]. Qed.

Lemma generate_response_nonempty (sdk : Sdk) (prompt context : list N) :
  generate_response sdk prompt context ≠ [].
Proof.
  unfold generate_response. cbn zeta.
  destruct (sdk _ _); [by apply str_or_nonempty|done].
Qed.

Lemma chat_with_context_nonempty (sdk : Sdk) (messages : list Turn) :
  chat_with_context sdk messages ≠ [].
Proof.
  unfold chat_with_context. cbn zeta.
  destruct (sdk _ _); [by apply str_or_nonempty|done].
Qed.

(** X28. The model layer never hands back an empty text, whatever the
    client does: an empty or missing answer is replaced by a fixed
    apology, a failure of the client by a text starting with the
    error prefix. So the reply computed for a text message, which is
    stored in the history and sent, is never empty. *)
Theorem model_layer_never_returns_empty (sdk : Sdk) :
  (∀ prompt context, generate_response sdk prompt context ≠ [])
  ∧ (∀ messages, chat_with_context sdk messages ≠ [])
  ∧ (∀ image_bytes prompt, analyze_image sdk image_bytes prompt ≠ [])
  ∧ (∀ prompt, (generate_image sdk prompt).2 ≠ [])
  ∧ (∀ b user message_text env, response_of b user message_text env ≠ []).
Proof.
  split_and!.
  - apply generate_response_nonempty.
  - apply chat_with_context_nonempty.
  - intros image_bytes prompt. unfold analyze_image. cbn zeta.
    destruct (sdk _ _); [by apply str_or_nonempty|done].
  - intros prompt. unfold generate_image.
    destruct (sdk _ _) as [response|e]; [|done].
    destruct (candidates response) as [|[[|part parts]|] rest]; try done.
    destruct (scan_parts _ _ _) as [[[|x d]|] [|c description]]; done.
  - intros b user message_text env. unfold response_of. cbn zeta.
    destruct (_ <? _);
      [apply chat_with_context_nonempty|apply generate_response_nonempty].
Qed.

(** ** The figures of the metrics endpoint *)

Lemma context_size_total_bound (b : Bot) (n : Z) :
  0 ≤ n →
  (∀ user_id ctx, user_contexts b !! user_id = Some ctx → len ctx ≤ n) →
  context_size_total b ≤ n * active_users b.
Proof.
  intros Hn. unfold context_size_total, active_users.
  generalize (user_contexts b). intros m.
  apply (map_fold_weak_ind
           (λ r (m : gmap Z (list Turn)),
              (∀ user_id ctx, m !! user_id = Some ctx → len ctx ≤ n)
              → r ≤ n * Z.of_nat (size m))).
  - intros _. rewrite map_size_empty. lia.
  - intros user_id ctx m' r Hfresh IH Hall.
    rewrite map_size_insert_None by done.
    assert (len ctx ≤ n) by (apply (Hall user_id); by rewrite lookup_insert_eq).
    assert (r ≤ n * Z.of_nat (size m')).
    { apply IH. intros other ctx' Hother. apply (Hall other).
      rewrite lookup_insert_ne; [done|]. intros ->. congruence. }
    lia.
Qed.

(** X29. The two conversation figures that the metrics endpoint and
    the statistics view report are tied together: from the start of
    the process on, the total number of stored turns is at most 21
    times the number of users on record. *)
Theorem context_size_total_at_most_21_per_user
    (c : Config) (t : Z) (us : list (Update * Env)) :
  let b := handle_all (Bot_init c t) us in
  0 ≤ context_size_total b ≤ 21 * active_users b.
Proof.
  intros b. split.
  - unfold context_size_total.
    apply (map_fold_weak_ind (λ r (_ : gmap Z (list Turn)), 0 ≤ r)); [done|].
    intros user_id ctx m r _ Hr. unfold len. lia.
  - apply context_size_total_bound; [lia|].
    intros user_id ctx Hlook.
    pose proof (history_at_most_21 c t us user_id) as Hbound.
    fold b in Hbound. unfold history, item in Hbound. rewrite Hlook in Hbound.
    cbn in Hbound. unfold len. lia.
Qed.
